(** * Image Manager conformance suite (pkg/validate/image.go)

    A shallow embedding of the image-manager validation suite of cri-tools:
    the four client wrappers ([pullPublicImage], [removeImage], [listImage],
    [imageStatus]), the helpers built on them and the six [It] scenarios,
    together with the properties the specification states about them.

    The runtime under test is reached only through the interface
    [ImageManagerService]; it is a parameter of everything below.  A test body
    is a function from the runtime's state to an outcome, the state the
    runtime is left in, and the list of observable events (progress lines and
    client calls) in the order they happened. *)

From Stdlib Require Import ZArith List String Ascii Bool Lia Permutation.
Import ListNotations.
Local Open Scope string_scope.
Local Open Scope Z_scope.

(** ** The Go pieces the file relies on *)

Module GoStrings.

(** [strings.Contains(s, substr)]: [substr] occurs in [s] as a run of
    bytes. *)
Fixpoint Contains (s substr : string) : bool :=
  if String.prefix substr s then true
  else match s with
       | EmptyString => false
       | String _ rest => Contains rest substr
       end.

(** Lower-case image of an ASCII byte; other bytes are left alone. *)
Definition lowerByte (ch : ascii) : ascii :=
  let n := nat_of_ascii ch in
  if andb (Nat.leb 65 n) (Nat.leb n 90) then ascii_of_nat (n + 32) else ch.

(** [strings.EqualFold] on ASCII strings, where Unicode simple folding is
    the identification of [A-Z] with [a-z].  The suite itself is stated
    over an arbitrary fold-equality; this instance is the one used to
    evaluate it on ASCII repo-tags. *)
Fixpoint asciiEqualFold (s t : string) : bool :=
  match s, t with
  | EmptyString, EmptyString => true
  | String a s', String b t' =>
      if Ascii.eqb (lowerByte a) (lowerByte b) then asciiEqualFold s' t' else false
  | _, _ => false
  end.

(** [fmt.Sprintf(format, arg)] for a format with one [%v] verb and a string
    (or error) argument: the verb is replaced by the argument's text. *)
Fixpoint Sprintf (format arg : string) : string :=
  match format with
  | EmptyString => EmptyString
  | String "%" (String "v" rest) => arg ++ rest
  | String ch rest => String ch (Sprintf rest arg)
  end.

End GoStrings.

Module GoInt.

(** Go's [int] on a 64-bit platform: two's complement, wrapping silently. *)
Definition wrap (z : Z) : Z := (z + 2 ^ 63) mod 2 ^ 64 - 2 ^ 63.

Definition add (a b : Z) : Z := wrap (a + b).

(** [len] of a slice. *)
Definition len {A : Type} (l : list A) : Z := Z.of_nat (List.length l).

End GoInt.

(** ** The CRI image API (package runtimeapi, v1alpha1) *)

(** A Go [error]: [None] is [nil], [Some e] an error whose text is [e]. *)
Definition error := string.

Record ImageSpec := { ImageSpec_Image : string }.

(** [ImageFilter.Image] is a pointer: [None] is the empty filter
    [&runtimeapi.ImageFilter{}]. *)
Record ImageFilter := { ImageFilter_Image : option ImageSpec }.

Record Image := {
  Id : string;
  RepoTags : list string;
  RepoDigests : list string;
  Size_ : Z
}.

Record AuthConfig := {
  Username : string;
  Password : string;
  Auth : string;
  ServerAddress : string;
  IdentityToken : string;
  RegistryToken : string
}.

(** [internalapi.ImageManagerService] over a runtime whose state has type
    [St].  Every method may change the runtime's state.  Pointers to image
    records ([*runtimeapi.Image]) are options: [None] is [nil]. *)
Record ImageManagerService (St : Type) := {
  ListImages : ImageFilter -> St -> (list (option Image) * option error) * St;
  ImageStatus : ImageSpec -> St -> (option Image * option error) * St;
  PullImage : ImageSpec -> option AuthConfig -> St -> (string * option error) * St;
  RemoveImage : ImageSpec -> St -> option error * St
}.
Arguments ListImages {St}.
Arguments ImageStatus {St}.
Arguments PullImage {St}.
Arguments RemoveImage {St}.

(** ** Test bodies *)

(** What a test body lets the outside see. *)
Inductive Event :=
| EvBy (text : string)
| EvLogf (text : string)
| EvPullImage (spec : ImageSpec) (auth : option AuthConfig)
| EvRemoveImage (spec : ImageSpec)
| EvListImages (filter : ImageFilter)
| EvImageStatus (spec : ImageSpec).

(** How a body ends: it returns; or an assertion called Ginkgo's [Fail], which
    records the message and unwinds the body; or the Go run time panicked. *)
Inductive Outcome (A : Type) :=
| Passed (a : A)
| Failed (message : string)
| Panicked (reason : string).
Arguments Passed {A}.
Arguments Failed {A}.
Arguments Panicked {A}.

Record Run (St A : Type) := mkRun {
  outcome : Outcome A;
  final : St;
  trace : list Event
}.
Arguments mkRun {St A}.
Arguments outcome {St A}.
Arguments final {St A}.
Arguments trace {St A}.

Definition Test (St A : Type) := St -> Run St A.

Module Ginkgo.
Section Steps.
Context {St : Type}.

Definition ret {A} (a : A) : Test St A := fun s => mkRun (Passed a) s [].

Definition bind {A B} (m : Test St A) (k : A -> Test St B) : Test St B := fun s =>
  let r := m s in
  match outcome r with
  | Passed a =>
      let r' := k a (final r) in
      mkRun (outcome r') (final r') (trace r ++ trace r')
  | Failed msg => mkRun (Failed msg) (final r) (trace r)
  | Panicked why => mkRun (Panicked why) (final r) (trace r)
  end.

Definition emit (e : Event) : Test St unit := fun s => mkRun (Passed tt) s [e].

(** A call of a client method: the call is an event, the method's answer is
    the value, the runtime moves to its new state. *)
Definition call {A} (e : Event) (method : St -> A * St) : Test St A := fun s =>
  let '(a, s') := method s in mkRun (Passed a) s' [e].

(** [By(text)] announces a step. *)
Definition By (text : string) : Test St unit := emit (EvBy text).

(** [Fail(message)]: the failure is recorded and the body unwinds. *)
Definition Fail {A} (message : string) : Test St A := fun s => mkRun (Failed message) s [].

(** A run-time panic of Go itself. *)
Definition panic {A} (reason : string) : Test St A := fun s => mkRun (Panicked reason) s [].

(** Reading a field through a pointer. *)
Definition deref {A} (p : option A) : Test St A :=
  match p with
  | Some a => ret a
  | None => panic "invalid memory address or nil pointer dereference"
  end.

(** The outcome of a body whose deferred call ended with [d].  Ginkgo keeps
    the first recorded failure; a panic of Go that is still unwinding is
    replaced by whatever the deferred call raises. *)
Definition settle {A} (o : Outcome A) (d : Outcome unit) : Outcome A :=
  match o, d with
  | Passed a, Passed _ => Passed a
  | Passed _, Failed msg => Failed msg
  | Passed _, Panicked why => Panicked why
  | Failed msg, _ => Failed msg
  | Panicked why, Passed _ => Panicked why
  | Panicked _, Failed msg => Failed msg
  | Panicked _, Panicked why => Panicked why
  end.

(** [defer deferred; body]: [body] is the rest of the enclosing function;
    [deferred] runs when it is left, however it is left. *)
Definition defer {A} (deferred : Test St unit) (body : Test St A) : Test St A := fun s =>
  let r := body s in
  let d := deferred (final r) in
  mkRun (settle (outcome r) (outcome d)) (final d) (trace r ++ trace d).

End Steps.
End Ginkgo.

Declare Scope test_scope.
Delimit Scope test_scope with test.
Notation "x <- m ;; k" := (Ginkgo.bind m (fun x => k))
  (at level 61, m at next level, right associativity) : test_scope.
Notation "m ;; k" := (Ginkgo.bind m (fun _ => k))
  (at level 61, right associativity) : test_scope.

Module Gomega.
Section Assertions.
Context {St : Type}.

(** [Expect(actual).To(matcher, description)] with the matcher's verdict
    [matches]; the recorded message is the description. *)
Definition To (matches : bool) (description : string) : Test St unit :=
  if matches then Ginkgo.ret tt else Ginkgo.Fail description.

Definition NotTo (matches : bool) (description : string) : Test St unit :=
  if matches then Ginkgo.Fail description else Ginkgo.ret tt.

(** [Equal(expected)] on two [int]s. *)
Definition Equal (actual expected : Z) : bool := actual =? expected.

(** [BeNil()] on a value whose type has no nil (a [string], a [uint64]):
    never matched. *)
Definition BeNil {A} (actual : A) : bool := false.

End Assertions.
End Gomega.

(** ** Package framework *)

Module framework.
Section Helpers.
Context {St : Type}.

(** Modelled from the spec: [framework.ExpectNoError] is defined in
    pkg/framework, outside this package.  The specification says of it that
    any error from the underlying client call fails the enclosing test at
    once, with a message, and that nothing else is done with the error.  The
    message is the caller's format applied to the error. *)
Definition ExpectNoError (err : option error) (format : string) : Test St unit :=
  match err with
  | None => Ginkgo.ret tt
  | Some e => Ginkgo.Fail (GoStrings.Sprintf format e)
  end.

(** [framework.Logf] writes a line to the test log. *)
Definition Logf (text : string) : Test St unit := Ginkgo.emit (EvLogf text).

End Helpers.
End framework.

(** ** pkg/validate/image.go *)

Import GoStrings.
Local Open Scope test_scope.

(** image name for test image api *)
Definition testImageName : string := "busybox".

(** name-tagged reference for test image *)
Definition testImageRef : string := testImageName ++ ":1.26.2".

(** Digested reference for test image *)
Definition busyboxDigestRef : string :=
  testImageName ++ "@sha256:817a12c32a39bbe394944ba49de563e085f1d3c5266eb8e9723256bc4448680e".

Section Validate.
Context {St : Type}.
Variable c : ImageManagerService St.

(** listImage list the image filtered by the image filter. *)
Definition listImage (filter : ImageFilter) : Test St (list (option Image)) :=
  r <- Ginkgo.call (EvListImages filter) (ListImages c filter) ;;
  let '(images, err) := r in
  framework.ExpectNoError err "Failed to get image list: %v" ;;
  Ginkgo.ret images.

(** listImageForImageName lists the images named imageName. *)
Definition listImageForImageName (imageName : string) : Test St (list (option Image)) :=
  Ginkgo.By ("Get image list for imageName : " ++ imageName) ;;
  let filter := {| ImageFilter_Image := Some {| ImageSpec_Image := imageName |} |} in
  images <- listImage filter ;;
  Ginkgo.ret images.

(** removeImage removes the image named imagesName. *)
Definition removeImage (imageName : string) : Test St unit :=
  Ginkgo.By ("Remove image : " ++ imageName) ;;
  let imageSpec := {| ImageSpec_Image := imageName |} in
  err <- Ginkgo.call (EvRemoveImage imageSpec) (RemoveImage c imageSpec) ;;
  framework.ExpectNoError err "failed to remove image: %v".

(** pullPublicImage pulls the public image named imageName. *)
Definition pullPublicImage (imageName : string) : Test St unit :=
  imageName <- (if negb (Contains imageName ":")
                then framework.Logf "Use latest as default image tag." ;;
                     Ginkgo.ret (imageName ++ ":latest")
                else Ginkgo.ret imageName) ;;
  Ginkgo.By ("Pull image : " ++ imageName) ;;
  let imageSpec := {| ImageSpec_Image := imageName |} in
  r <- Ginkgo.call (EvPullImage imageSpec None) (PullImage c imageSpec None) ;;
  let '(_, err) := r in
  framework.ExpectNoError err "failed to pull image: %v".

(** removeImageList removes the images listed in the imageList. *)
Fixpoint removeImageList (imageList : list string) : Test St unit :=
  match imageList with
  | [] => Ginkgo.ret tt
  | imageName :: rest => removeImage imageName ;; removeImageList rest
  end.

(** pullImageList pulls the images listed in the imageList. *)
Fixpoint pullImageList (imageList : list string) : Test St unit :=
  match imageList with
  | [] => Ginkgo.ret tt
  | imageName :: rest => pullPublicImage imageName ;; pullImageList rest
  end.

(** imageStatus gets the status of the image named imageName. *)
Definition imageStatus (imageName : string) : Test St (option Image) :=
  Ginkgo.By "Get image status" ;;
  let imageSpec := {| ImageSpec_Image := imageName |} in
  r <- Ginkgo.call (EvImageStatus imageSpec) (ImageStatus c imageSpec) ;;
  let '(status, err) := r in
  framework.ExpectNoError err "failed to get image status: %v" ;;
  Ginkgo.ret status.

(** testRemoveImage removes the image name imageName and check if it
    successes. *)
Definition testRemoveImage (imageName : string) : Test St unit :=
  Ginkgo.By ("Remove image : " ++ imageName) ;;
  removeImage imageName ;;
  Ginkgo.By "Check image list empty" ;;
  images <- listImageForImageName imageName ;;
  Gomega.To (Gomega.Equal (GoInt.len images) 0) "Should have none image in list".

(** testPullPublicImage pulls the image named imageName, make sure it
    success and remove the image. *)
Definition testPullPublicImage (imageName : string) : Test St unit :=
  let imageName := if negb (Contains imageName ":") then imageName ++ ":latest" else imageName in
  pullPublicImage imageName ;;
  Ginkgo.By ("Check image list to make sure pulling image success : " ++ imageName) ;;
  images <- listImageForImageName imageName ;;
  Gomega.To (Gomega.Equal (GoInt.len images) 1) "Should have one image in list" ;;
  testRemoveImage imageName.

(** *** The scenarios of [KubeDescribe("Image Manager")]

    [BeforeEach] hands every scenario the image client of the framework;
    here that client is [c]. *)

Variable EqualFold : string -> string -> bool.

(** The body of the inner loop of the distinct-images scenario: three
    independent tests of one repo-tag. *)
Definition countDistinctTag (count : Z) (imagesTag : string) : Z :=
  let count := if EqualFold imagesTag "busybox:1-uclibc" then GoInt.add count 1 else count in
  let count := if EqualFold imagesTag "busybox:1-musl" then GoInt.add count 1 else count in
  let count := if EqualFold imagesTag "busybox:1-glibc" then GoInt.add count 1 else count in
  count.

(** The loops of the distinct-images scenario; [None] when a record pointer
    is nil and [imageName.RepoTags] panics. *)
Fixpoint countDistinctImages (images : list (option Image)) (count : Z) : option Z :=
  match images with
  | [] => Some count
  | None :: _ => None
  | Some imageName :: rest =>
      countDistinctImages rest (fold_left countDistinctTag (RepoTags imageName) count)
  end.

(** The body of the inner loop of the shared-image scenario. *)
Definition countSharedTag (count : Z) (imagesTag : string) : Z :=
  let count :=
    if EqualFold imagesTag "busybox:1.26.2-uclibc" then GoInt.add count 1 else count in
  let count := if EqualFold imagesTag "busybox:1-uclibc" then GoInt.add count 1 else count in
  let count := if EqualFold imagesTag "busybox:1" then GoInt.add count 1 else count in
  count.

(** The loops of the shared-image scenario: after each record a count below
    3 starts again from 0. *)
Fixpoint countSharedImage (images : list (option Image)) (count : Z) : option Z :=
  match images with
  | [] => Some count
  | None :: _ => None
  | Some imageName :: rest =>
      let count := fold_left countSharedTag (RepoTags imageName) count in
      let count := if count <? 3 then 0 else count in
      countSharedImage rest count
  end.

(** The loops have no effect but the count, so a nil record shows as a
    panic once the count is asked for. *)
Definition counted (count : option Z) : Test St Z :=
  match count with
  | Some n => Ginkgo.ret n
  | None => Ginkgo.panic "invalid memory address or nil pointer dereference"
  end.

(** It("public image with tag should be pulled and removed") *)
Definition itPullWithTag : Test St unit := testPullPublicImage testImageRef.

(** It("public image without tag should be pulled and removed") *)
Definition itPullWithoutTag : Test St unit := testPullPublicImage testImageName.

(** It("public image with digest should be pulled and removed") *)
Definition itPullWithDigest : Test St unit := testPullPublicImage busyboxDigestRef.

(** It("image status get image fields should not be empty") *)
Definition itImageStatus : Test St unit :=
  pullPublicImage testImageRef ;;
  Ginkgo.defer (removeImage testImageRef)
    (status <- imageStatus testImageRef ;;
     status <- Ginkgo.deref status ;;
     Gomega.NotTo (Gomega.BeNil (Id status)) "Image Id should not be nil" ;;
     Gomega.NotTo (Gomega.Equal (GoInt.len (RepoTags status)) 0)
       "Should have repoTags in image" ;;
     Gomega.NotTo (Gomega.BeNil (Size_ status)) "Image Size should not be nil").

(** different tags refer to different images *)
Definition distinctImageList : list string :=
  ["busybox:1-uclibc"; "busybox:1-musl"; "busybox:1-glibc"].

(** It("listImage should get exactly 3 image in the result list") *)
Definition itListDistinctImages : Test St unit :=
  let testImageList := distinctImageList in
  pullImageList testImageList ;;
  Ginkgo.defer (removeImageList testImageList)
    (images <- listImage {| ImageFilter_Image := None |} ;;
     count <- counted (countDistinctImages images 0) ;;
     Gomega.To (Gomega.Equal count 3) "Should have the specified three images in list").

(** different tags refer to the same image *)
Definition sharedImageList : list string :=
  ["busybox:1.26.2-uclibc"; "busybox:1-uclibc"; "busybox:1"].

(** It("listImage should get exactly 3 repoTags in the result image") *)
Definition itListSharedImage : Test St unit :=
  let testImageList := sharedImageList in
  pullImageList testImageList ;;
  Ginkgo.defer (removeImageList testImageList)
    (images <- listImage {| ImageFilter_Image := None |} ;;
     count <- counted (countSharedImage images 0) ;;
     Gomega.To (Gomega.Equal count 3) "Should have three repoTags in single image in list").

(** The [It] blocks in the order the file declares them. *)
Definition suite : list (string * Test St unit) :=
  [ ("public image with tag should be pulled and removed [Conformance]", itPullWithTag);
    ("public image without tag should be pulled and removed [Conformance]", itPullWithoutTag);
    ("public image with digest should be pulled and removed [Conformance]", itPullWithDigest);
    ("image status get image fields should not be empty [Conformance]", itImageStatus);
    ("listImage should get exactly 3 image in the result list [Conformance]",
      itListDistinctImages);
    ("listImage should get exactly 3 repoTags in the result image [Conformance]",
      itListSharedImage) ].

End Validate.

(** ** Reading a trace *)

(** The calls made on the client, without the progress lines. *)
Definition isCall (e : Event) : bool :=
  match e with
  | EvBy _ | EvLogf _ => false
  | _ => true
  end.

Definition clientCalls (t : list Event) : list Event := filter isCall t.

(** The image names of the pull requests of a trace, in order. *)
Fixpoint pullRequests (t : list Event) : list string :=
  match t with
  | [] => []
  | EvPullImage spec _ :: rest => ImageSpec_Image spec :: pullRequests rest
  | _ :: rest => pullRequests rest
  end.

(** The image names of the removals of a trace, in order. *)
Fixpoint removals (t : list Event) : list string :=
  match t with
  | [] => []
  | EvRemoveImage spec :: rest => ImageSpec_Image spec :: removals rest
  | _ :: rest => removals rest
  end.

(** The filters of the list requests of a trace, in order. *)
Fixpoint listFilters (t : list Event) : list ImageFilter :=
  match t with
  | [] => []
  | EvListImages filter :: rest => filter :: listFilters rest
  | _ :: rest => listFilters rest
  end.

Definition pullOf (imageName : string) : Event :=
  EvPullImage {| ImageSpec_Image := imageName |} None.

Definition removeOf (imageName : string) : Event :=
  EvRemoveImage {| ImageSpec_Image := imageName |}.

Definition statusOf (imageName : string) : Event :=
  EvImageStatus {| ImageSpec_Image := imageName |}.

Definition listFor (imageName : string) : Event :=
  EvListImages {| ImageFilter_Image := Some {| ImageSpec_Image := imageName |} |}.

Definition listAll : Event := EvListImages {| ImageFilter_Image := None |}.

(** ** A runtime to run the suite against

    An in-memory image store behind the client interface.  A reference is
    stored under the name [qualify] gives it; references that the registry
    resolves to the same image share one record. *)

Module FakeRuntime.

Definition Store := list Image.

(** The image a reference resolves to: the three uclibc references of
    busybox 1.26.2 are one image, any other reference is an image of its
    own. *)
Definition resolve (ref : string) : string :=
  if existsb (String.eqb ref) ["busybox:1.26.2-uclibc"; "busybox:1-uclibc"; "busybox:1"]
  then "sha256:busybox-1.26.2-uclibc"
  else "sha256:" ++ ref.

Definition hasTag (tag : string) (img : Image) : bool :=
  existsb (String.eqb tag) (RepoTags img).

Definition addTag (tag : string) (img : Image) : Image :=
  if hasTag tag img then img
  else {| Id := Id img; RepoTags := (RepoTags img ++ [tag])%list;
          RepoDigests := RepoDigests img; Size_ := Size_ img |}.

Definition dropTag (tag : string) (img : Image) : Image :=
  {| Id := Id img; RepoTags := filter (fun t => negb (String.eqb tag t)) (RepoTags img);
     RepoDigests := RepoDigests img; Size_ := Size_ img |}.

Definition tagged (img : Image) : bool :=
  match RepoTags img with [] => false | _ => true end.

Section Client.
Variable qualify : string -> string.

Definition doPull (spec : ImageSpec) (auth : option AuthConfig) (store : Store)
  : (string * option error) * Store :=
  let id := resolve (ImageSpec_Image spec) in
  let tag := qualify (ImageSpec_Image spec) in
  if existsb (fun img => String.eqb (Id img) id) store
  then ((id, None),
        map (fun img => if String.eqb (Id img) id then addTag tag img else img) store)
  else ((id, None),
        (store ++ [{| Id := id; RepoTags := [tag]; RepoDigests := []; Size_ := 1 |}])%list).

Definition doRemove (spec : ImageSpec) (store : Store) : option error * Store :=
  (None, filter tagged (map (dropTag (ImageSpec_Image spec)) store)).

Definition doList (filter : ImageFilter) (store : Store)
  : (list (option Image) * option error) * Store :=
  match ImageFilter_Image filter with
  | None => ((map Some store, None), store)
  | Some spec =>
      ((map Some (List.filter (hasTag (ImageSpec_Image spec)) store), None), store)
  end.

Definition doStatus (spec : ImageSpec) (store : Store)
  : (option Image * option error) * Store :=
  ((find (hasTag (ImageSpec_Image spec)) store, None), store).

Definition service : ImageManagerService Store :=
  {| ListImages := doList; ImageStatus := doStatus; PullImage := doPull;
     RemoveImage := doRemove |}.

End Client.

(** A store that holds the tagged test image. *)
Definition stocked : Store :=
  [{| Id := "sha256:busybox:1.26.2"; RepoTags := ["busybox:1.26.2"];
      RepoDigests := []; Size_ := 1 |}].

(** The runtime that stores a reference as it is given. *)
Definition client : ImageManagerService Store := service (fun ref => ref).

(** A runtime that stores references fully qualified, and matches filters
    against what it stored. *)
Definition qualifying : ImageManagerService Store :=
  service (fun ref => "docker.io/library/" ++ ref).

(** A runtime out of reach: every call errors and nothing changes. *)
Definition unreachable : ImageManagerService unit :=
  {| ListImages := fun _ s => (([], Some "connection refused"), s);
     ImageStatus := fun _ s => ((None, Some "connection refused"), s);
     PullImage := fun _ _ s => (("", Some "connection refused"), s);
     RemoveImage := fun _ s => (Some "connection refused", s) |}.

(** A stub: no call errors, every list request is answered with [images]
    and every status request with [status]. *)
Definition canned (images : list (option Image)) (status : option Image)
  : ImageManagerService unit :=
  {| ListImages := fun _ s => ((images, None), s);
     ImageStatus := fun _ s => ((status, None), s);
     PullImage := fun spec _ s => (("sha256:" ++ ImageSpec_Image spec, None), s);
     RemoveImage := fun _ s => (None, s) |}.

End FakeRuntime.

(** ** Image references as the specification describes them

    A reference is a name, optionally followed by a tag ([name:tag]) or a
    digest ([name@sha256:...]).  The name may start with a registry host,
    which may carry a port ([host:port/name]); the tag or digest belongs to
    the last path component. *)

Module Reference.

(** The part of a reference after its last ['/']. *)
Fixpoint lastComponent (ref : string) : string :=
  match ref with
  | EmptyString => EmptyString
  | String ch rest =>
      if Contains rest "/" then lastComponent rest
      else if Ascii.eqb ch "/" then rest
      else ref
  end.

(** The part of a reference up to and including its last ['/']. *)
Fixpoint leadingPath (ref : string) : string :=
  match ref with
  | EmptyString => EmptyString
  | String ch rest =>
      if Contains rest "/" then String ch (leadingPath rest)
      else if Ascii.eqb ch "/" then String ch EmptyString
      else EmptyString
  end.

(** A reference carries a tag or a digest when its last component holds a
    [':'] (the one before the tag, or the one inside the digest). *)
Definition carriesTagOrDigest (ref : string) : bool :=
  Contains (lastComponent ref) ":".

(** The reference the specification has pulled: [:latest] is added to an
    untagged one. *)
Definition defaulted (ref : string) : string :=
  if carriesTagOrDigest ref then ref else ref ++ ":latest".

End Reference.

(** The name the code pulls. *)
Definition pulledName (imageName : string) : string :=
  if Contains imageName ":" then imageName else imageName ++ ":latest".

(** A run that comes after the events [t]. *)
Definition after {St A : Type} (t : list Event) (r : Run St A) : Run St A :=
  mkRun (outcome r) (final r) (t ++ trace r)%list.

(** ** What a passing run of each scenario asks of the client *)

Definition pullListRemoveScript (imageName : string) : list Event :=
  [pullOf imageName; listFor imageName; removeOf imageName; listFor imageName].

Definition statusScript : list Event :=
  [pullOf testImageRef; statusOf testImageRef; removeOf testImageRef].

Definition listScript (imageList : list string) : list Event :=
  (map pullOf imageList ++ [listAll] ++ map removeOf imageList)%list.

(** The script the specification gives every test case: pull the image(s),
    list, remove the image(s), list again. *)
Definition specifiedScript (calls : list Event) : Prop :=
  exists (pulled : list string) (filter filter' : ImageFilter),
    calls = (map pullOf pulled ++ [EvListImages filter]
             ++ map removeOf pulled ++ [EvListImages filter'])%list.

(** ** What the count of the shared-image scenario measures *)

Section SharedImageCount.
Variable EqualFold : string -> string -> bool.

(** How many of the three targets a repo-tag is fold-equal to. *)
Definition tagMatches (imagesTag : string) : Z :=
  Z.b2z (EqualFold imagesTag "busybox:1.26.2-uclibc")
  + Z.b2z (EqualFold imagesTag "busybox:1-uclibc")
  + Z.b2z (EqualFold imagesTag "busybox:1").

(** The matches of a record: those of its repo-tag entries, added up, an
    entry counting as often as it is listed. *)
Definition recordMatches (img : Image) : Z :=
  fold_right (fun imagesTag n => tagMatches imagesTag + n) 0 (RepoTags img).

(** The matches of a list of records, added up. *)
Definition listMatches (recs : list Image) : Z :=
  fold_right (fun img n => recordMatches img + n) 0 recs.

(** One record of the list has exactly three matches, every record before it
    fewer, every record after it none. *)
Definition singleRecordWithThree (recs : list Image) : Prop :=
  exists (pre : list Image) (img : Image) (post : list Image),
    recs = (pre ++ img :: post)%list
    /\ Forall (fun r => recordMatches r < 3) pre
    /\ recordMatches img = 3
    /\ Forall (fun r => recordMatches r = 0) post.

(** A record carries all three tags: each target is fold-equal to one of its
    repo-tags. *)
Definition carriesAllThree (img : Image) : Prop :=
  forall target, In target sharedImageList ->
    exists imagesTag, In imagesTag (RepoTags img) /\ EqualFold imagesTag target = true.

End SharedImageCount.

(** The number of repo-tag entries of a list of records. *)
Definition totalTags (recs : list Image) : Z :=
  fold_right (fun img n => GoInt.len (RepoTags img) + n) 0 recs.

(** The calls a passing run of each scenario makes, in the order of the
    suite. *)
Definition suiteScripts : list (list Event) :=
  [ pullListRemoveScript "busybox:1.26.2";
    pullListRemoveScript "busybox:latest";
    pullListRemoveScript busyboxDigestRef;
    statusScript;
    listScript distinctImageList;
    listScript sharedImageList ].

(** A record without repo-tags. *)
Definition untaggedRecord : Image :=
  {| Id := "sha256:busybox-1.26.2"; RepoTags := []; RepoDigests := []; Size_ := 1 |}.

(** A record with two of the three tags. *)
Definition twoOfThree : Image :=
  {| Id := "sha256:busybox-1.26.2-uclibc";
     RepoTags := ["busybox:1-uclibc"; "busybox:1"];
     RepoDigests := [];
     Size_ := 1 |}.

(** A record whose three repo-tags differ from one another only in case. *)
Definition caseVariants : Image :=
  {| Id := "sha256:busybox-1.26.2-uclibc";
     RepoTags := ["busybox:1-uclibc"; "busybox:1-UCLIBC"; "busybox:1-Uclibc"];
     RepoDigests := [];
     Size_ := 1 |}.

(** The single record the shared-image scenario expects. *)
Definition sharedRecord : Image :=
  {| Id := "sha256:busybox-1.26.2-uclibc";
     RepoTags := ["busybox:1.26.2-uclibc"; "busybox:1-uclibc"; "busybox:1"];
     RepoDigests := [];
     Size_ := 1 |}.

(** ** What the count of the distinct-images scenario measures *)

Section DistinctImageCount.
Variable EqualFold : string -> string -> bool.

(** How many of the three targets of the distinct-images scenario a repo-tag
    is fold-equal to. *)
Definition distinctTagMatches (imagesTag : string) : Z :=
  Z.b2z (EqualFold imagesTag "busybox:1-uclibc")
  + Z.b2z (EqualFold imagesTag "busybox:1-musl")
  + Z.b2z (EqualFold imagesTag "busybox:1-glibc").

Definition distinctRecordMatches (img : Image) : Z :=
  fold_right (fun imagesTag n => distinctTagMatches imagesTag + n) 0 (RepoTags img).

Definition distinctListMatches (recs : list Image) : Z :=
  fold_right (fun img n => distinctRecordMatches img + n) 0 recs.

End DistinctImageCount.

(** ** A runtime whose registry lacks one image *)

Module PartialRegistry.

(** The in-memory runtime, except that pulling [absent] errors and changes
    nothing. *)
Definition client (absent : string) : ImageManagerService FakeRuntime.Store :=
  {| ListImages := FakeRuntime.doList;
     ImageStatus := FakeRuntime.doStatus;
     PullImage := fun spec auth store =>
       if String.eqb (ImageSpec_Image spec) absent
       then (("", Some "manifest unknown"), store)
       else FakeRuntime.doPull (fun ref => ref) spec auth store;
     RemoveImage := FakeRuntime.doRemove |}.

End PartialRegistry.

(** ** Runs measured against the client alone *)

(** The events of a trace before its first pull request. *)
Fixpoint beforePull (t : list Event) : list Event :=
  match t with
  | [] => []
  | EvPullImage _ _ :: _ => []
  | e :: rest => e :: beforePull rest
  end.

Section UpToError.
Context {St : Type}.
Variable c : ImageManagerService St.

(** The images of [names] pulled through the client one after another, each
    in the state the pull before it left, up to and including the first pull
    that errors: the number of pulls requested, the error of the last one if
    it errored, and the state the last one left. *)
Fixpoint pullsUpToError (names : list string) (s : St) : nat * option error * St :=
  match names with
  | [] => (0%nat, None, s)
  | imageName :: rest =>
      let r := PullImage c {| ImageSpec_Image := imageName |} None s in
      match snd (fst r) with
      | Some e => (1%nat, Some e, snd r)
      | None =>
          let more := pullsUpToError rest (snd r) in
          (S (fst (fst more)), snd (fst more), snd more)
      end
  end.

(** The same for removals. *)
Fixpoint removalsUpToError (names : list string) (s : St) : nat * option error * St :=
  match names with
  | [] => (0%nat, None, s)
  | imageName :: rest =>
      let r := RemoveImage c {| ImageSpec_Image := imageName |} s in
      match fst r with
      | Some e => (1%nat, Some e, snd r)
      | None =>
          let more := removalsUpToError rest (snd r) in
          (S (fst (fst more)), snd (fst more), snd more)
      end
  end.

End UpToError.

(** A run follows a script: its calls are the first calls of the script, at
    least one of them and in the script's order, and all of them when the run
    passes. *)
Definition followsScript {St : Type} (r : Run St unit) (script : list Event) : Prop :=
  (exists k, (1 <= k <= List.length script)%nat
             /\ clientCalls (trace r) = firstn k script)
  /\ (outcome r = Passed tt -> clientCalls (trace r) = script).

(** * Properties *)

(** ** Strings *)

Lemma prefix_empty (s : string) : String.prefix "" s = true.
Proof. destruct s; reflexivity. Qed.

Lemma Contains_byte_cons (ch a : ascii) (s : string) :
  Contains (String a s) (String ch "") = (Ascii.eqb ch a || Contains s (String ch ""))%bool.
Proof.
  cbn [Contains String.prefix].
  destruct (ascii_dec ch a) as [->|Hne].
  - rewrite prefix_empty, Ascii.eqb_refl. reflexivity.
  - destruct (Ascii.eqb_spec ch a); [contradiction|reflexivity].
Qed.

Lemma Contains_byte_nil (ch : ascii) : Contains "" (String ch "") = false.
Proof. reflexivity. Qed.

Lemma Contains_byte_app (ch : ascii) (s t : string) :
  Contains (s ++ t) (String ch "")
  = (Contains s (String ch "") || Contains t (String ch ""))%bool.
Proof.
  induction s as [|a s IH].
  - reflexivity.
  - change (String a s ++ t) with (String a (s ++ t)).
    rewrite !Contains_byte_cons, IH, orb_assoc. reflexivity.
Qed.

Lemma Contains_latest (imageName : string) : Contains (imageName ++ ":latest") ":" = true.
Proof. rewrite Contains_byte_app. apply orb_true_r. Qed.

Lemma pulledName_has_colon (imageName : string) : Contains (pulledName imageName) ":" = true.
Proof.
  unfold pulledName. destruct (Contains imageName ":") eqn:E; [exact E|apply Contains_latest].
Qed.

Lemma append_empty_r (s : string) : s ++ "" = s.
Proof. induction s as [|a s IH]; [reflexivity|cbn; now rewrite IH]. Qed.

Lemma reference_split (ref : string) :
  Reference.leadingPath ref ++ Reference.lastComponent ref = ref.
Proof.
  induction ref as [|ch rest IH]; [reflexivity|].
  cbn [Reference.leadingPath Reference.lastComponent].
  destruct (Contains rest "/") eqn:E.
  - cbn. now rewrite IH.
  - destruct (Ascii.eqb ch "/"); reflexivity.
Qed.

Lemma Contains_colon_split (ref : string) :
  Contains ref ":"
  = (Contains (Reference.leadingPath ref) ":" || Reference.carriesTagOrDigest ref)%bool.
Proof.
  unfold Reference.carriesTagOrDigest.
  rewrite <- Contains_byte_app, reference_split. reflexivity.
Qed.

(** ** Runs of the wrappers *)

Lemma Sprintf_pull (e : error) :
  Sprintf "failed to pull image: %v" e = "failed to pull image: " ++ e.
Proof. cbn. now rewrite append_empty_r. Qed.

Lemma Sprintf_remove (e : error) :
  Sprintf "failed to remove image: %v" e = "failed to remove image: " ++ e.
Proof. cbn. now rewrite append_empty_r. Qed.

Lemma Sprintf_list (e : error) :
  Sprintf "Failed to get image list: %v" e = "Failed to get image list: " ++ e.
Proof. cbn. now rewrite append_empty_r. Qed.

Lemma Sprintf_status (e : error) :
  Sprintf "failed to get image status: %v" e = "failed to get image status: " ++ e.
Proof. cbn. now rewrite append_empty_r. Qed.

(** One step of a run: the monad's steps are unfolded, the wrappers are
    not. *)
Ltac run_step :=
  cbv beta iota zeta delta
    [Ginkgo.bind Ginkgo.By Ginkgo.emit Ginkgo.ret Ginkgo.Fail Ginkgo.panic Ginkgo.deref
     Gomega.To Gomega.NotTo Gomega.Equal Gomega.BeNil after outcome final trace fst snd].

Section WrapperRuns.
Context {St : Type}.
Variable c : ImageManagerService St.

Lemma pullPublicImage_run (imageName : string) (s : St) :
  pullPublicImage c imageName s
  = let r := PullImage c {| ImageSpec_Image := pulledName imageName |} None s in
    mkRun (match snd (fst r) with
           | None => Passed tt
           | Some e => Failed ("failed to pull image: " ++ e)
           end)
          (snd r)
          ((if Contains imageName ":" then [] else [EvLogf "Use latest as default image tag."])
           ++ [EvBy ("Pull image : " ++ pulledName imageName); pullOf (pulledName imageName)])%list.
Proof.
  unfold pullPublicImage, pulledName, pullOf, framework.Logf, Ginkgo.By, Ginkgo.emit,
    Ginkgo.call, Ginkgo.bind, Ginkgo.ret.
  destruct (Contains imageName ":"); cbn [negb outcome final trace];
    destruct (PullImage c _ None s) as [[ref [e|]] s1];
    cbn [outcome final trace fst snd framework.ExpectNoError Ginkgo.Fail Ginkgo.ret app];
    rewrite ?Sprintf_pull; reflexivity.
Qed.

Lemma removeImage_run (imageName : string) (s : St) :
  removeImage c imageName s
  = let r := RemoveImage c {| ImageSpec_Image := imageName |} s in
    mkRun (match fst r with
           | None => Passed tt
           | Some e => Failed ("failed to remove image: " ++ e)
           end)
          (snd r)
          [EvBy ("Remove image : " ++ imageName); removeOf imageName].
Proof.
  unfold removeImage, removeOf, Ginkgo.By, Ginkgo.emit, Ginkgo.call, Ginkgo.bind.
  cbn [outcome final trace].
  destruct (RemoveImage c _ s) as [[e|] s1];
    cbn [outcome final trace fst snd framework.ExpectNoError Ginkgo.Fail Ginkgo.ret app];
    rewrite ?Sprintf_remove; reflexivity.
Qed.

Lemma listImage_run (filter : ImageFilter) (s : St) :
  listImage c filter s
  = let r := ListImages c filter s in
    mkRun (match snd (fst r) with
           | None => Passed (fst (fst r))
           | Some e => Failed ("Failed to get image list: " ++ e)
           end)
          (snd r)
          [EvListImages filter].
Proof.
  unfold listImage, Ginkgo.call, Ginkgo.bind.
  destruct (ListImages c filter s) as [[images [e|]] s1];
    cbn [outcome final trace fst snd framework.ExpectNoError Ginkgo.Fail Ginkgo.ret app];
    rewrite ?Sprintf_list; reflexivity.
Qed.

Lemma imageStatus_run (imageName : string) (s : St) :
  imageStatus c imageName s
  = let r := ImageStatus c {| ImageSpec_Image := imageName |} s in
    mkRun (match snd (fst r) with
           | None => Passed (fst (fst r))
           | Some e => Failed ("failed to get image status: " ++ e)
           end)
          (snd r)
          [EvBy "Get image status"; statusOf imageName].
Proof.
  unfold imageStatus, statusOf, Ginkgo.By, Ginkgo.emit, Ginkgo.call, Ginkgo.bind.
  cbn [outcome final trace].
  destruct (ImageStatus c _ s) as [[status [e|]] s1];
    cbn [outcome final trace fst snd framework.ExpectNoError Ginkgo.Fail Ginkgo.ret app];
    rewrite ?Sprintf_status; reflexivity.
Qed.

Lemma listImageForImageName_run (imageName : string) (s : St) :
  listImageForImageName c imageName s
  = after [EvBy ("Get image list for imageName : " ++ imageName)]
      (listImage c {| ImageFilter_Image := Some {| ImageSpec_Image := imageName |} |} s).
Proof.
  unfold listImageForImageName, after, Ginkgo.By, Ginkgo.emit, Ginkgo.bind.
  cbn [outcome final trace].
  rewrite listImage_run.
  destruct (ListImages c _ s) as [[images [e|]] s1];
    cbn [outcome final trace fst snd Ginkgo.ret app]; rewrite ?app_nil_r; reflexivity.
Qed.

(** The run of [testRemoveImage], spelt out on the answers of the client. *)
Lemma testRemoveImage_run (imageName : string) (s : St) :
  testRemoveImage c imageName s
  = let r := RemoveImage c {| ImageSpec_Image := imageName |} s in
    let removing :=
      [EvBy ("Remove image : " ++ imageName); EvBy ("Remove image : " ++ imageName);
       removeOf imageName] in
    match fst r with
    | Some e => mkRun (Failed ("failed to remove image: " ++ e)) (snd r) removing
    | None =>
        let l := ListImages c {| ImageFilter_Image := Some {| ImageSpec_Image := imageName |} |}
                   (snd r) in
        mkRun (match snd (fst l) with
               | Some e => Failed ("Failed to get image list: " ++ e)
               | None =>
                   if GoInt.len (fst (fst l)) =? 0 then Passed tt
                   else Failed "Should have none image in list"
               end)
              (snd l)
              (removing ++ [EvBy "Check image list empty";
                            EvBy ("Get image list for imageName : " ++ imageName);
                            listFor imageName])%list
    end.
Proof.
  unfold testRemoveImage. run_step. rewrite removeImage_run. run_step.
  destruct (RemoveImage c _ s) as [[e|] s1]; run_step; [reflexivity|].
  rewrite listImageForImageName_run, listImage_run. run_step.
  destruct (ListImages c _ s1) as [[images [e|]] s2]; run_step; [reflexivity|].
  destruct (GoInt.len images =? 0); reflexivity.
Qed.

(** The run of [testPullPublicImage], spelt out on the answers of the
    client. *)
Lemma testPullPublicImage_run (imageName : string) (s : St) :
  testPullPublicImage c imageName s
  = let name := pulledName imageName in
    let r := PullImage c {| ImageSpec_Image := name |} None s in
    let pulling := [EvBy ("Pull image : " ++ name); pullOf name] in
    match snd (fst r) with
    | Some e => mkRun (Failed ("failed to pull image: " ++ e)) (snd r) pulling
    | None =>
        let l := ListImages c {| ImageFilter_Image := Some {| ImageSpec_Image := name |} |}
                   (snd r) in
        let listing :=
          (pulling
           ++ [EvBy ("Check image list to make sure pulling image success : " ++ name);
               EvBy ("Get image list for imageName : " ++ name);
               listFor name])%list in
        match snd (fst l) with
        | Some e => mkRun (Failed ("Failed to get image list: " ++ e)) (snd l) listing
        | None =>
            if GoInt.len (fst (fst l)) =? 1
            then after listing (testRemoveImage c name (snd l))
            else mkRun (Failed "Should have one image in list") (snd l) listing
        end
    end.
Proof.
  unfold testPullPublicImage. fold (pulledName imageName).
  assert (Hn : pulledName imageName
               = if negb (Contains imageName ":") then imageName ++ ":latest" else imageName).
  { unfold pulledName. now destruct (Contains imageName ":"). }
  rewrite <- Hn. clear Hn. cbn zeta.
  generalize (pulledName_has_colon imageName).
  generalize (pulledName imageName) as name. intros name Hcolon.
  assert (Hid : pulledName name = name) by (unfold pulledName; now rewrite Hcolon).
  run_step. rewrite pullPublicImage_run, Hid, Hcolon. run_step.
  destruct (PullImage c _ None s) as [[ref [e|]] s1]; run_step; [reflexivity|].
  rewrite listImageForImageName_run, listImage_run. run_step.
  destruct (ListImages c _ s1) as [[images [e|]] s2]; run_step; [reflexivity|].
  destruct (GoInt.len images =? 1); run_step; [|reflexivity].
  destruct (testRemoveImage c name s2) as [o s3 t]. destruct o; reflexivity.
Qed.

End WrapperRuns.

(** ** Traces *)

Lemma clientCalls_app (t u : list Event) :
  clientCalls (t ++ u) = (clientCalls t ++ clientCalls u)%list.
Proof. apply filter_app. Qed.

Lemma pullRequests_app (t u : list Event) :
  pullRequests (t ++ u) = (pullRequests t ++ pullRequests u)%list.
Proof.
  induction t as [|e t IH]; [reflexivity|].
  destruct e; cbn [app pullRequests]; rewrite IH; reflexivity.
Qed.

Lemma removals_app (t u : list Event) :
  removals (t ++ u) = (removals t ++ removals u)%list.
Proof.
  induction t as [|e t IH]; [reflexivity|].
  destruct e; cbn [app removals]; rewrite IH; reflexivity.
Qed.

Lemma listFilters_app (t u : list Event) :
  listFilters (t ++ u) = (listFilters t ++ listFilters u)%list.
Proof.
  induction t as [|e t IH]; [reflexivity|].
  destruct e; cbn [app listFilters]; rewrite IH; reflexivity.
Qed.

Section Pulling.
Context {St : Type}.
Variable c : ImageManagerService St.

Lemma testRemoveImage_calls (imageName : string) (s : St) :
  exists k, clientCalls (trace (testRemoveImage c imageName s))
            = firstn k [removeOf imageName; listFor imageName].
Proof.
  rewrite testRemoveImage_run. cbv zeta.
  destruct (RemoveImage c _ s) as [[e|] s1]; cbn [fst snd trace].
  - now exists 1%nat.
  - now exists 2%nat.
Qed.

Lemma testRemoveImage_pulls_nothing (imageName : string) (s : St) :
  pullRequests (trace (testRemoveImage c imageName s)) = [].
Proof.
  rewrite testRemoveImage_run. cbv zeta.
  destruct (RemoveImage c _ s) as [[e|] s1]; reflexivity.
Qed.

Lemma pullPublicImage_requests (imageName : string) (s : St) :
  pullRequests (trace (pullPublicImage c imageName s)) = [pulledName imageName].
Proof.
  rewrite pullPublicImage_run. cbv zeta. cbn [trace].
  rewrite pullRequests_app. now destruct (Contains imageName ":").
Qed.

Lemma testPullPublicImage_requests (imageName : string) (s : St) :
  pullRequests (trace (testPullPublicImage c imageName s)) = [pulledName imageName].
Proof.
  rewrite testPullPublicImage_run. cbv zeta.
  destruct (PullImage c _ None s) as [[ref [e|]] s1]; cbn [fst snd]; [reflexivity|].
  destruct (ListImages c _ s1) as [[images [e|]] s2]; cbn [fst snd]; [reflexivity|].
  destruct (GoInt.len images =? 1); [|reflexivity].
  unfold after. cbn [trace].
  rewrite pullRequests_app, testRemoveImage_pulls_nothing. reflexivity.
Qed.

End Pulling.

(** ** The claims about the name that is pulled *)

(** C9.  Whether [":latest"] is appended is decided by whether the reference
    holds a [':'] anywhere, not by whether it has a tag: for every reference,
    the one pull request of [pullPublicImage] and of [testPullPublicImage]
    carries the reference unchanged when it holds a [':'] and with
    [":latest"] appended when it holds none.  The digest reference of the
    suite and a reference whose only [':'] is in the registry's port both
    hold one, the latter without carrying a tag or a digest. *)
Theorem colon_decides_the_default_tag :
  (forall (St : Type) (c : ImageManagerService St) (imageName : string) (s : St),
      pullRequests (trace (pullPublicImage c imageName s))
      = [if Contains imageName ":" then imageName else imageName ++ ":latest"]
      /\ pullRequests (trace (testPullPublicImage c imageName s))
         = [if Contains imageName ":" then imageName else imageName ++ ":latest"])
  /\ Contains busyboxDigestRef ":" = true
  /\ Contains "localhost:5000/busybox" ":" = true
  /\ Reference.carriesTagOrDigest "localhost:5000/busybox" = false.
Proof.
  split; [|repeat split].
  intros St c imageName s. split.
  - apply pullPublicImage_requests.
  - apply testPullPublicImage_requests.
Qed.

(** C1, as amended.  A reference that carries a tag or a digest is pulled
    unchanged, by [pullPublicImage] and by [testPullPublicImage]; and when no
    [':'] stands before the last ['/'] of a reference (no registry port), the
    pull request carries the reference as the specification defaults it:
    unchanged when it carries a tag or a digest, with [":latest"] appended
    when it is untagged. *)
Theorem tagged_unchanged_untagged_defaulted
    (St : Type) (c : ImageManagerService St) (imageName : string) (s : St) :
  (Reference.carriesTagOrDigest imageName = true ->
   pullRequests (trace (pullPublicImage c imageName s)) = [imageName]
   /\ pullRequests (trace (testPullPublicImage c imageName s)) = [imageName])
  /\ (Contains (Reference.leadingPath imageName) ":" = false ->
      pullRequests (trace (pullPublicImage c imageName s)) = [Reference.defaulted imageName]
      /\ pullRequests (trace (testPullPublicImage c imageName s))
         = [Reference.defaulted imageName]).
Proof.
  rewrite pullPublicImage_requests, testPullPublicImage_requests.
  unfold pulledName, Reference.defaulted. rewrite Contains_colon_split.
  split.
  - intros ->. rewrite orb_true_r. now split.
  - intros ->. cbn [orb]. now split.
Qed.

(** The amended C1 at the tagged and at the untagged reference of the
    suite. *)
Lemma tagged_unchanged_untagged_defaulted_witness :
  pullRequests (trace (pullPublicImage FakeRuntime.client testImageRef [])) = [testImageRef]
  /\ pullRequests (trace (testPullPublicImage FakeRuntime.client testImageName []))
     = [testImageName ++ ":latest"].
Proof.
  split.
  - apply (proj1 (tagged_unchanged_untagged_defaulted _ FakeRuntime.client testImageRef [])).
    reflexivity.
  - apply (proj2 (tagged_unchanged_untagged_defaulted _ FakeRuntime.client testImageName [])).
    reflexivity.
Defined.

(** C1 as stated fails on an untagged reference with a registry port: the
    reference carries neither tag nor digest, and it is pulled as it is. *)
Lemma untagged_with_port_not_defaulted :
  Reference.carriesTagOrDigest "localhost:5000/busybox" = false
  /\ Reference.defaulted "localhost:5000/busybox" = "localhost:5000/busybox:latest"
  /\ pullRequests (trace (pullPublicImage FakeRuntime.client "localhost:5000/busybox" []))
     = ["localhost:5000/busybox"]
  /\ pullRequests (trace (testPullPublicImage FakeRuntime.client "localhost:5000/busybox" []))
     <> ["localhost:5000/busybox" ++ ":latest"].
Proof.
  repeat (split; [reflexivity|]). vm_compute. discriminate.
Qed.

(** ** The claims about the wrappers *)

(** C2, as amended.  Each wrapper makes exactly one call on the client and
    leaves the runtime in the state that call left it in.  When the call
    returns an error the wrapper fails the test at once, with a message that
    ends in the error; nothing is retried and the error is not looked into.
    When the call returns no error the wrapper does not fail: [listImage] and
    [imageStatus] return what the call returned, [pullPublicImage] and
    [removeImage] return nothing (the image reference [PullImage] answers
    with is dropped). *)
Theorem wrappers_fail_on_error_only
    (St : Type) (c : ImageManagerService St) (imageName : string) (filter : ImageFilter)
    (s : St) :
  (let r := PullImage c {| ImageSpec_Image := pulledName imageName |} None s in
   outcome (pullPublicImage c imageName s)
   = match snd (fst r) with
     | None => Passed tt
     | Some e => Failed ("failed to pull image: " ++ e)
     end
   /\ final (pullPublicImage c imageName s) = snd r
   /\ clientCalls (trace (pullPublicImage c imageName s)) = [pullOf (pulledName imageName)])
  /\ (let r := RemoveImage c {| ImageSpec_Image := imageName |} s in
      outcome (removeImage c imageName s)
      = match fst r with
        | None => Passed tt
        | Some e => Failed ("failed to remove image: " ++ e)
        end
      /\ final (removeImage c imageName s) = snd r
      /\ clientCalls (trace (removeImage c imageName s)) = [removeOf imageName])
  /\ (let r := ListImages c filter s in
      outcome (listImage c filter s)
      = match snd (fst r) with
        | None => Passed (fst (fst r))
        | Some e => Failed ("Failed to get image list: " ++ e)
        end
      /\ final (listImage c filter s) = snd r
      /\ clientCalls (trace (listImage c filter s)) = [EvListImages filter])
  /\ (let r := ImageStatus c {| ImageSpec_Image := imageName |} s in
      outcome (imageStatus c imageName s)
      = match snd (fst r) with
        | None => Passed (fst (fst r))
        | Some e => Failed ("failed to get image status: " ++ e)
        end
      /\ final (imageStatus c imageName s) = snd r
      /\ clientCalls (trace (imageStatus c imageName s)) = [statusOf imageName]).
Proof.
  rewrite pullPublicImage_run, removeImage_run, listImage_run, imageStatus_run.
  cbv zeta. cbn [outcome final trace].
  repeat split.
  rewrite clientCalls_app. now destruct (Contains imageName ":").
Qed.

(** C2 as stated fails for [pullPublicImage]: two pulls that the client
    answers, without error, with different image references end in the same
    value, so that value is not the call's result. *)
Lemma pullPublicImage_drops_the_reference :
  snd (fst (PullImage FakeRuntime.client {| ImageSpec_Image := "busybox:1-musl" |} None [])) = None
  /\ snd (fst (PullImage FakeRuntime.client {| ImageSpec_Image := "busybox:1-glibc" |} None []))
     = None
  /\ fst (fst (PullImage FakeRuntime.client {| ImageSpec_Image := "busybox:1-musl" |} None []))
     <> fst (fst (PullImage FakeRuntime.client {| ImageSpec_Image := "busybox:1-glibc" |} None []))
  /\ outcome (pullPublicImage FakeRuntime.client "busybox:1-musl" []) = Passed tt
  /\ outcome (pullPublicImage FakeRuntime.client "busybox:1-glibc" []) = Passed tt.
Proof.
  repeat split; try reflexivity. vm_compute. discriminate.
Qed.

(** On a runtime out of reach each wrapper fails with its own message, after
    its one call. *)
Example wrappers_on_unreachable_runtime :
  pullPublicImage FakeRuntime.unreachable "busybox" tt
  = mkRun (Failed "failed to pull image: connection refused") tt
      [EvLogf "Use latest as default image tag."; EvBy "Pull image : busybox:latest";
       pullOf "busybox:latest"]
  /\ removeImage FakeRuntime.unreachable "busybox:latest" tt
     = mkRun (Failed "failed to remove image: connection refused") tt
         [EvBy "Remove image : busybox:latest"; removeOf "busybox:latest"]
  /\ listImage FakeRuntime.unreachable {| ImageFilter_Image := None |} tt
     = mkRun (Failed "Failed to get image list: connection refused") tt [listAll]
  /\ imageStatus FakeRuntime.unreachable "busybox:latest" tt
     = mkRun (Failed "failed to get image status: connection refused") tt
         [EvBy "Get image status"; statusOf "busybox:latest"].
Proof. repeat split. Qed.

(** C4.  [testRemoveImage] removes the image and then lists with a filter for
    it: when both calls succeed these are its two calls, and the test passes
    exactly when the filtered list has no record; otherwise it fails on its
    own assertion. *)
Theorem testRemoveImage_asserts_empty_filtered_list
    (St : Type) (c : ImageManagerService St) (imageName : string) (s s1 s2 : St)
    (images : list (option Image))
    (Hremove : RemoveImage c {| ImageSpec_Image := imageName |} s = (None, s1))
    (Hlist : ListImages c {| ImageFilter_Image := Some {| ImageSpec_Image := imageName |} |} s1
             = ((images, None), s2)) :
  clientCalls (trace (testRemoveImage c imageName s)) = [removeOf imageName; listFor imageName]
  /\ final (testRemoveImage c imageName s) = s2
  /\ (outcome (testRemoveImage c imageName s) = Passed tt <-> images = [])
  /\ (images <> [] ->
      outcome (testRemoveImage c imageName s) = Failed "Should have none image in list").
Proof.
  rewrite testRemoveImage_run. cbv zeta. rewrite Hremove. cbn [fst snd].
  rewrite Hlist. cbn [fst snd outcome final trace].
  split; [reflexivity|]. split; [reflexivity|].
  unfold GoInt.len. destruct images as [|img images]; cbn [List.length].
  - split; [split; reflexivity|]. intros H. now contradiction H.
  - replace (Z.of_nat (S (List.length images)) =? 0) with false
      by (symmetry; apply Z.eqb_neq; lia).
    split; [split; discriminate|reflexivity].
Qed.

(** C4 on the in-memory runtime, with the image in the store. *)
Lemma testRemoveImage_asserts_empty_filtered_list_witness :
  clientCalls (trace (testRemoveImage FakeRuntime.client "busybox:1.26.2" FakeRuntime.stocked))
  = [removeOf "busybox:1.26.2"; listFor "busybox:1.26.2"]
  /\ outcome (testRemoveImage FakeRuntime.client "busybox:1.26.2" FakeRuntime.stocked)
     = Passed tt.
Proof.
  pose proof (testRemoveImage_asserts_empty_filtered_list _ FakeRuntime.client
                "busybox:1.26.2" FakeRuntime.stocked [] [] [] eq_refl eq_refl) as H.
  split; [exact (proj1 H)|].
  apply (proj1 (proj2 (proj2 H))). reflexivity.
Defined.

(** C3, as amended.  Once the pull of [testPullPublicImage] has succeeded,
    the next call lists the images with a filter for the pulled name, and the
    test fails its assertion about that list exactly when the list does not
    have one record. *)
Theorem testPullPublicImage_asserts_one_filtered_record
    (St : Type) (c : ImageManagerService St) (imageName ref : string) (s s1 s2 : St)
    (images : list (option Image))
    (Hpull : PullImage c {| ImageSpec_Image := pulledName imageName |} None s
             = ((ref, None), s1))
    (Hlist : ListImages c
               {| ImageFilter_Image := Some {| ImageSpec_Image := pulledName imageName |} |} s1
             = ((images, None), s2)) :
  (exists rest,
      clientCalls (trace (testPullPublicImage c imageName s))
      = pullOf (pulledName imageName) :: listFor (pulledName imageName) :: rest)
  /\ (outcome (testPullPublicImage c imageName s) = Failed "Should have one image in list"
      <-> List.length images <> 1%nat).
Proof.
  rewrite testPullPublicImage_run. cbv zeta. rewrite Hpull. cbn [fst snd].
  rewrite Hlist. cbn [fst snd]. unfold GoInt.len.
  destruct (Z.eqb_spec (Z.of_nat (List.length images)) 1) as [Hone|Hne].
  - unfold after. cbn [outcome trace]. split.
    + eexists. rewrite clientCalls_app. reflexivity.
    + split; [|lia]. intros Hfail. exfalso. revert Hfail.
      rewrite testRemoveImage_run. cbv zeta.
      destruct (RemoveImage c _ s2) as [[e|] s3]; cbn [fst snd outcome]; [discriminate|].
      destruct (ListImages c _ s3) as [[images' [e|]] s4]; cbn [fst snd outcome];
        [discriminate|].
      destruct (GoInt.len images' =? 0); discriminate.
  - cbn [outcome trace]. split.
    + exists []. reflexivity.
    + split; [lia|reflexivity].
Qed.

(** The amended C3 on the in-memory runtime. *)
Lemma testPullPublicImage_asserts_one_filtered_record_witness :
  exists rest,
    clientCalls (trace (testPullPublicImage FakeRuntime.client "busybox" []))
    = pullOf "busybox:latest" :: listFor "busybox:latest" :: rest.
Proof.
  exact (proj1 (testPullPublicImage_asserts_one_filtered_record _ FakeRuntime.client
                  "busybox" "sha256:busybox:latest" []
                  [{| Id := "sha256:busybox:latest"; RepoTags := ["busybox:latest"];
                      RepoDigests := []; Size_ := 1 |}]
                  [{| Id := "sha256:busybox:latest"; RepoTags := ["busybox:latest"];
                      RepoDigests := []; Size_ := 1 |}]
                  [Some {| Id := "sha256:busybox:latest"; RepoTags := ["busybox:latest"];
                           RepoDigests := []; Size_ := 1 |}]
                  eq_refl eq_refl)).
Defined.

(** C3 as stated fails: [testPullPublicImage] passes on the in-memory runtime
    without ever listing with no filter; both its list requests carry the
    filter for the pulled name. *)
Lemma testPullPublicImage_never_lists_unfiltered :
  outcome (testPullPublicImage FakeRuntime.client "busybox:1.26.2" []) = Passed tt
  /\ listFilters (trace (testPullPublicImage FakeRuntime.client "busybox:1.26.2" []))
     = [ {| ImageFilter_Image := Some {| ImageSpec_Image := "busybox:1.26.2" |} |};
         {| ImageFilter_Image := Some {| ImageSpec_Image := "busybox:1.26.2" |} |} ]
  /\ ~ In listAll (trace (testPullPublicImage FakeRuntime.client "busybox:1.26.2" [])).
Proof.
  split; [reflexivity|]. split; [reflexivity|].
  vm_compute. intros H. repeat (destruct H as [H|H]; [discriminate H|]). exact H.
Qed.

(** ** The count of the shared-image scenario *)

Lemma add_in_range (a b : Z) :
  - 2 ^ 63 <= a + b < 2 ^ 63 -> GoInt.add a b = a + b.
Proof.
  intros H. unfold GoInt.add, GoInt.wrap.
  rewrite Z.mod_small; lia.
Qed.

Section SharedCount.
Variable EqualFold : string -> string -> bool.

Lemma tagMatches_range (imagesTag : string) : 0 <= tagMatches EqualFold imagesTag <= 3.
Proof.
  unfold tagMatches.
  destruct (EqualFold imagesTag "busybox:1.26.2-uclibc"),
    (EqualFold imagesTag "busybox:1-uclibc"), (EqualFold imagesTag "busybox:1");
    cbn [Z.b2z]; lia.
Qed.

Lemma countSharedTag_in_range (count : Z) (imagesTag : string) :
  0 <= count -> count + 3 < 2 ^ 63 ->
  countSharedTag EqualFold count imagesTag = count + tagMatches EqualFold imagesTag.
Proof.
  intros H0 Hmax. unfold countSharedTag, tagMatches.
  destruct (EqualFold imagesTag "busybox:1.26.2-uclibc"),
    (EqualFold imagesTag "busybox:1-uclibc"), (EqualFold imagesTag "busybox:1");
    cbn [Z.b2z]; rewrite ?add_in_range; rewrite ?add_in_range; rewrite ?add_in_range; lia.
Qed.

Lemma tagsMatches_range (tags : list string) :
  0 <= fold_right (fun imagesTag n => tagMatches EqualFold imagesTag + n) 0 tags
    <= 3 * GoInt.len tags.
Proof.
  unfold GoInt.len. induction tags as [|tag tags IH]; cbn [fold_right List.length]; [lia|].
  pose proof (tagMatches_range tag). lia.
Qed.

Lemma recordMatches_range (img : Image) :
  0 <= recordMatches EqualFold img <= 3 * GoInt.len (RepoTags img).
Proof. apply tagsMatches_range. Qed.

Lemma fold_countSharedTag_in_range (tags : list string) (count : Z) :
  0 <= count -> count + 3 * GoInt.len tags < 2 ^ 63 ->
  fold_left (countSharedTag EqualFold) tags count
  = count + fold_right (fun imagesTag n => tagMatches EqualFold imagesTag + n) 0 tags.
Proof.
  unfold GoInt.len. revert count.
  induction tags as [|tag tags IH]; intros count H0 Hmax;
    cbn [fold_left fold_right List.length] in *.
  - lia.
  - pose proof (tagMatches_range tag) as Htag.
    rewrite countSharedTag_in_range by lia.
    rewrite IH by lia. lia.
Qed.

Lemma totalTags_nonneg (recs : list Image) : 0 <= totalTags recs.
Proof.
  induction recs as [|r recs IH]; cbn [totalTags fold_right]; [lia|].
  fold (totalTags recs). unfold GoInt.len. lia.
Qed.

Lemma listMatches_nonneg (recs : list Image) : 0 <= listMatches EqualFold recs.
Proof.
  induction recs as [|r recs IH]; cbn [listMatches fold_right]; [lia|].
  fold (listMatches EqualFold recs). pose proof (recordMatches_range r). lia.
Qed.

Lemma listMatches_zero (recs : list Image) :
  listMatches EqualFold recs = 0 <-> Forall (fun r => recordMatches EqualFold r = 0) recs.
Proof.
  induction recs as [|r recs IH]; cbn [listMatches fold_right].
  - split; [constructor|reflexivity].
  - fold (listMatches EqualFold recs).
    pose proof (recordMatches_range r). pose proof (listMatches_nonneg recs).
    split.
    + intros Hsum. constructor; [lia|]. apply IH. lia.
    + intros Hall. inversion Hall as [|? ? Hr Hrest]; subst.
      apply IH in Hrest. lia.
Qed.

(** From 3 on the count is never set back: the loop adds up what is left. *)
Lemma countSharedImage_from_three (recs : list Image) (count : Z) :
  3 <= count -> count + 3 * totalTags recs < 2 ^ 63 ->
  countSharedImage EqualFold (map Some recs) count
  = Some (count + listMatches EqualFold recs).
Proof.
  revert count.
  induction recs as [|r recs IH]; intros count H3 Hmax;
    cbn [map countSharedImage listMatches totalTags fold_right] in *.
  - f_equal. lia.
  - fold (totalTags recs) in Hmax. fold (listMatches EqualFold recs).
    pose proof (totalTags_nonneg recs) as Htot.
    pose proof (recordMatches_range r) as Hr.
    assert (Hlen : 0 <= GoInt.len (RepoTags r)) by (unfold GoInt.len; lia).
    rewrite fold_countSharedTag_in_range by lia.
    fold (recordMatches EqualFold r).
    replace (count + recordMatches EqualFold r <? 3) with false
      by (symmetry; apply Z.ltb_ge; lia).
    rewrite IH by lia. f_equal. lia.
Qed.

Lemma singleRecordWithThree_skip (r : Image) (recs : list Image) :
  recordMatches EqualFold r < 3 ->
  singleRecordWithThree EqualFold (r :: recs) <-> singleRecordWithThree EqualFold recs.
Proof.
  intros Hr. split.
  - intros (pre & img & post & Hsplit & Hpre & Himg & Hpost).
    destruct pre as [|p pre]; cbn [app] in Hsplit; injection Hsplit as -> ->.
    + lia.
    + inversion Hpre; subst. now exists pre, img, post.
  - intros (pre & img & post & -> & Hpre & Himg & Hpost).
    exists (r :: pre), img, post. repeat split; auto.
Qed.

Lemma singleRecordWithThree_here (r : Image) (recs : list Image) :
  3 <= recordMatches EqualFold r ->
  singleRecordWithThree EqualFold (r :: recs)
  <-> recordMatches EqualFold r = 3 /\ listMatches EqualFold recs = 0.
Proof.
  intros Hr. rewrite listMatches_zero. split.
  - intros (pre & img & post & Hsplit & Hpre & Himg & Hpost).
    destruct pre as [|p pre]; cbn [app] in Hsplit; injection Hsplit as -> ->.
    + now split.
    + inversion Hpre; subst. lia.
  - intros [Hthree Hrest]. exists [], r, recs. repeat split; auto.
Qed.

(** The count ends at 3 exactly when one record has three matches, the
    records before it fewer and the records after it none. *)
Lemma countSharedImage_three (recs : list Image) :
  3 * totalTags recs < 2 ^ 63 ->
  countSharedImage EqualFold (map Some recs) 0 = Some 3
  <-> singleRecordWithThree EqualFold recs.
Proof.
  induction recs as [|r recs IH]; intros Hmax.
  - cbn [map countSharedImage]. split; [discriminate|].
    intros (pre & img & post & Hsplit & _). now destruct pre.
  - cbn [map countSharedImage totalTags fold_right] in *. fold (totalTags recs) in Hmax.
    pose proof (totalTags_nonneg recs) as Htot.
    pose proof (recordMatches_range r) as Hr.
    assert (Hlen : 0 <= GoInt.len (RepoTags r)) by (unfold GoInt.len; lia).
    rewrite fold_countSharedTag_in_range by lia.
    fold (recordMatches EqualFold r). rewrite Z.add_0_l.
    destruct (Z.ltb_spec (recordMatches EqualFold r) 3) as [Hlt|Hge].
    + rewrite singleRecordWithThree_skip by exact Hlt. apply IH. lia.
    + rewrite singleRecordWithThree_here by exact Hge.
      rewrite countSharedImage_from_three by lia.
      pose proof (listMatches_nonneg recs).
      split.
      * intros [= Hsum]. lia.
      * intros [-> ->]. reflexivity.
Qed.

(** After each record the count is 0 or at least 3, whatever it was. *)
Lemma countSharedImage_zero_or_three (images : list (option Image)) (count n : Z) :
  count = 0 \/ 3 <= count ->
  countSharedImage EqualFold images count = Some n ->
  n = 0 \/ 3 <= n.
Proof.
  revert count. induction images as [|[img|] images IH]; intros count Hcount;
    cbn [countSharedImage].
  - now intros [= <-].
  - apply IH.
    destruct (Z.ltb_spec (fold_left (countSharedTag EqualFold) (RepoTags img) count) 3);
      [now left|now right].
  - discriminate.
Qed.

Lemma countSharedImage_total (recs : list Image) (count : Z) :
  exists n, countSharedImage EqualFold (map Some recs) count = Some n.
Proof.
  revert count. induction recs as [|r recs IH]; intros count; cbn [map countSharedImage].
  - now exists count.
  - apply IH.
Qed.

End SharedCount.

(** ** Runs of the lists of pulls and removals *)

Lemma removals_clientCalls (t : list Event) : removals (clientCalls t) = removals t.
Proof.
  unfold clientCalls. induction t as [|e t IH]; [reflexivity|].
  destruct e; cbn [List.filter isCall removals]; rewrite ?IH; reflexivity.
Qed.

Lemma removals_pulls (names : list string) : removals (map pullOf names) = [].
Proof. induction names as [|n names IH]; [reflexivity|exact IH]. Qed.

Lemma removals_removes (names : list string) : removals (map removeOf names) = names.
Proof.
  induction names as [|n names IH]; [reflexivity|].
  cbn [map removals removeOf ImageSpec_Image]. now rewrite IH.
Qed.

Section Lists.
Context {St : Type}.
Variable c : ImageManagerService St.

Lemma bind_run {A B : Type} (m : Test St A) (k : A -> Test St B) (s : St) :
  Ginkgo.bind m k s
  = match outcome (m s) with
    | Passed a => after (trace (m s)) (k a (final (m s)))
    | Failed msg => mkRun (Failed msg) (final (m s)) (trace (m s))
    | Panicked why => mkRun (Panicked why) (final (m s)) (trace (m s))
    end.
Proof. reflexivity. Qed.

Lemma pullPublicImage_outcome (imageName : string) (s : St) :
  outcome (pullPublicImage c imageName s) = Passed tt
  \/ exists e, outcome (pullPublicImage c imageName s) = Failed ("failed to pull image: " ++ e).
Proof.
  rewrite pullPublicImage_run. cbv zeta. cbn [outcome].
  destruct (snd (fst (PullImage c _ None s))) as [e|]; [right; now exists e|now left].
Qed.

Lemma removeImage_outcome (imageName : string) (s : St) :
  outcome (removeImage c imageName s) = Passed tt
  \/ exists e, outcome (removeImage c imageName s) = Failed ("failed to remove image: " ++ e).
Proof.
  rewrite removeImage_run. cbv zeta. cbn [outcome].
  destruct (fst (RemoveImage c _ s)) as [e|]; [right; now exists e|now left].
Qed.

Lemma pullImageList_passed (imageList : list string) (s : St) :
  outcome (pullImageList c imageList s) = Passed tt ->
  clientCalls (trace (pullImageList c imageList s)) = map pullOf (map pulledName imageList).
Proof.
  revert s. induction imageList as [|imageName rest IH]; intros s; cbn [pullImageList map].
  - reflexivity.
  - rewrite bind_run.
    destruct (pullPublicImage_outcome imageName s) as [Hp|[e Hp]]; rewrite Hp;
      [|discriminate].
    unfold after. cbn [outcome trace]. intros Hrest.
    rewrite clientCalls_app, (IH _ Hrest).
    rewrite pullPublicImage_run. cbv zeta. cbn [trace].
    rewrite clientCalls_app. now destruct (Contains imageName ":").
Qed.

Lemma pullImageList_outcome (imageList : list string) (s : St) :
  outcome (pullImageList c imageList s) = Passed tt
  \/ exists e, outcome (pullImageList c imageList s) = Failed ("failed to pull image: " ++ e).
Proof.
  revert s. induction imageList as [|imageName rest IH]; intros s; cbn [pullImageList].
  - now left.
  - rewrite bind_run.
    destruct (pullPublicImage_outcome imageName s) as [Hp|[e Hp]]; rewrite Hp.
    + unfold after. cbn [outcome]. apply IH.
    + right. now exists e.
Qed.

Lemma removeImageList_outcome (imageList : list string) (s : St) :
  outcome (removeImageList c imageList s) = Passed tt
  \/ exists e,
      outcome (removeImageList c imageList s) = Failed ("failed to remove image: " ++ e).
Proof.
  revert s. induction imageList as [|imageName rest IH]; intros s; cbn [removeImageList].
  - now left.
  - rewrite bind_run.
    destruct (removeImage_outcome imageName s) as [Hp|[e Hp]]; rewrite Hp.
    + unfold after. cbn [outcome]. apply IH.
    + right. now exists e.
Qed.

Lemma removeImage_calls (imageName : string) (s : St) :
  clientCalls (trace (removeImage c imageName s)) = [removeOf imageName].
Proof. rewrite removeImage_run. reflexivity. Qed.

Lemma removeImageList_passed (imageList : list string) (s : St) :
  outcome (removeImageList c imageList s) = Passed tt ->
  clientCalls (trace (removeImageList c imageList s)) = map removeOf imageList.
Proof.
  revert s. induction imageList as [|imageName rest IH]; intros s; cbn [removeImageList map].
  - reflexivity.
  - rewrite bind_run.
    destruct (removeImage_outcome imageName s) as [Hp|[e Hp]]; rewrite Hp;
      [|discriminate].
    unfold after. cbn [outcome trace]. intros Hrest.
    now rewrite clientCalls_app, (IH _ Hrest), removeImage_calls.
Qed.

(** The first image of the list is always asked to be removed. *)
Lemma removeImageList_first (imageName : string) (rest : list string) (s : St) :
  exists more,
    removals (trace (removeImageList c (imageName :: rest) s)) = imageName :: more.
Proof.
  cbn [removeImageList]. rewrite bind_run.
  destruct (removeImage_outcome imageName s) as [Hp|[e Hp]]; rewrite Hp.
  - unfold after. cbn [trace]. rewrite removals_app.
    rewrite <- (removals_clientCalls (trace (removeImage c imageName s))), removeImage_calls.
    eexists. reflexivity.
  - cbn [trace].
    rewrite <- removals_clientCalls, removeImage_calls.
    eexists. reflexivity.
Qed.

(** When no removal errors, every image of the list is removed, in order. *)
Lemma removeImageList_all (imageList : list string) (s : St) :
  (forall spec st, fst (RemoveImage c spec st) = None) ->
  outcome (removeImageList c imageList s) = Passed tt
  /\ removals (trace (removeImageList c imageList s)) = imageList.
Proof.
  intros Hok. revert s.
  induction imageList as [|imageName rest IH]; intros s; cbn [removeImageList].
  - now split.
  - rewrite bind_run.
    assert (Hp : outcome (removeImage c imageName s) = Passed tt).
    { rewrite removeImage_run. cbv zeta. cbn [outcome]. now rewrite Hok. }
    rewrite Hp. unfold after. cbn [outcome trace].
    destruct (IH (final (removeImage c imageName s))) as [Ho Hr].
    split; [exact Ho|].
    rewrite removals_app, Hr.
    now rewrite <- (removals_clientCalls (trace (removeImage c imageName s))), removeImage_calls.
Qed.

End Lists.

(** ** Runs of the scenarios with deferred removal *)

Section Scenarios.
Context {St : Type}.
Variable c : ImageManagerService St.
Variable EqualFold : string -> string -> bool.

(** The run of the status scenario, spelt out on the answers of the
    client. *)
Lemma itImageStatus_run (s : St) :
  itImageStatus c s
  = let p := PullImage c {| ImageSpec_Image := testImageRef |} None s in
    let pulling := [EvBy ("Pull image : " ++ testImageRef); pullOf testImageRef] in
    match snd (fst p) with
    | Some e => mkRun (Failed ("failed to pull image: " ++ e)) (snd p) pulling
    | None =>
        let a := ImageStatus c {| ImageSpec_Image := testImageRef |} (snd p) in
        let verdict :=
          match snd (fst a) with
          | Some e => Failed ("failed to get image status: " ++ e)
          | None =>
              match fst (fst a) with
              | None => Panicked "invalid memory address or nil pointer dereference"
              | Some status =>
                  if GoInt.len (RepoTags status) =? 0
                  then Failed "Should have repoTags in image"
                  else Passed tt
              end
          end in
        let d := removeImage c testImageRef (snd a) in
        mkRun (Ginkgo.settle verdict (outcome d)) (final d)
              (pulling ++ [EvBy "Get image status"; statusOf testImageRef] ++ trace d)%list
    end.
Proof.
  unfold itImageStatus. rewrite bind_run, pullPublicImage_run.
  change (pulledName testImageRef) with testImageRef.
  change (Contains testImageRef ":") with true.
  cbv zeta. cbn [outcome final trace app].
  destruct (PullImage c _ None s) as [[ref [e|]] s1]; cbn [fst snd]; [reflexivity|].
  unfold after, Ginkgo.defer. cbn [outcome final trace].
  rewrite !bind_run, imageStatus_run. cbv zeta. cbn [outcome final trace].
  destruct (ImageStatus c _ s1) as [[status [e|]] s2]; cbn [fst snd outcome final trace];
    [reflexivity|].
  destruct status as [status|]; run_step; [|reflexivity].
  destruct (GoInt.len (RepoTags status) =? 0); reflexivity.
Qed.

(** The run of the distinct-images scenario, spelt out on the run of its
    pulls, the answer to its list request and the run of its removals. *)
Lemma itListDistinctImages_run (s : St) :
  itListDistinctImages c EqualFold s
  = let p := pullImageList c distinctImageList s in
    match outcome p with
    | Passed _ =>
        let l := ListImages c {| ImageFilter_Image := None |} (final p) in
        let verdict :=
          match snd (fst l) with
          | Some e => Failed ("Failed to get image list: " ++ e)
          | None =>
              match countDistinctImages EqualFold (fst (fst l)) 0 with
              | None => Panicked "invalid memory address or nil pointer dereference"
              | Some count =>
                  if count =? 3 then Passed tt
                  else Failed "Should have the specified three images in list"
              end
          end in
        let d := removeImageList c distinctImageList (snd l) in
        mkRun (Ginkgo.settle verdict (outcome d)) (final d)
              (trace p ++ [listAll] ++ trace d)%list
    | Failed msg => mkRun (Failed msg) (final p) (trace p)
    | Panicked why => mkRun (Panicked why) (final p) (trace p)
    end.
Proof.
  unfold itListDistinctImages. cbv zeta. rewrite bind_run.
  destruct (pullImageList c distinctImageList s) as [[[]|msg|why] s1 t1];
    cbn [outcome final trace]; [|reflexivity|reflexivity].
  unfold after, Ginkgo.defer. cbn [outcome final trace].
  rewrite !bind_run, listImage_run. cbv zeta. cbn [outcome final trace].
  destruct (ListImages c _ s1) as [[images [e|]] s2]; cbn [fst snd outcome final trace];
    [reflexivity|].
  unfold counted.
  destruct (countDistinctImages EqualFold images 0) as [count|]; run_step; [|reflexivity].
  destruct (count =? 3); reflexivity.
Qed.

(** The run of the shared-image scenario, in the same way. *)
Lemma itListSharedImage_run (s : St) :
  itListSharedImage c EqualFold s
  = let p := pullImageList c sharedImageList s in
    match outcome p with
    | Passed _ =>
        let l := ListImages c {| ImageFilter_Image := None |} (final p) in
        let verdict :=
          match snd (fst l) with
          | Some e => Failed ("Failed to get image list: " ++ e)
          | None =>
              match countSharedImage EqualFold (fst (fst l)) 0 with
              | None => Panicked "invalid memory address or nil pointer dereference"
              | Some count =>
                  if count =? 3 then Passed tt
                  else Failed "Should have three repoTags in single image in list"
              end
          end in
        let d := removeImageList c sharedImageList (snd l) in
        mkRun (Ginkgo.settle verdict (outcome d)) (final d)
              (trace p ++ [listAll] ++ trace d)%list
    | Failed msg => mkRun (Failed msg) (final p) (trace p)
    | Panicked why => mkRun (Panicked why) (final p) (trace p)
    end.
Proof.
  unfold itListSharedImage. cbv zeta. rewrite bind_run.
  destruct (pullImageList c sharedImageList s) as [[[]|msg|why] s1 t1];
    cbn [outcome final trace]; [|reflexivity|reflexivity].
  unfold after, Ginkgo.defer. cbn [outcome final trace].
  rewrite !bind_run, listImage_run. cbv zeta. cbn [outcome final trace].
  destruct (ListImages c _ s1) as [[images [e|]] s2]; cbn [fst snd outcome final trace];
    [reflexivity|].
  unfold counted.
  destruct (countSharedImage EqualFold images 0) as [count|]; run_step; [|reflexivity].
  destruct (count =? 3); reflexivity.
Qed.

End Scenarios.

(** ** The claims about the shared-image scenario *)

(** C10.  Whatever list of image records [ListImages] returns, the count the
    shared-image scenario ends with is 0 or at least 3, never 1 or 2: after
    each record a count below 3 is set back to 0.  The loops end with a count
    for every list of (non-nil) records. *)
Theorem shared_count_never_one_or_two
    (EqualFold : string -> string -> bool) (images : list (option Image)) :
  (forall recs, images = map Some recs ->
     exists n, countSharedImage EqualFold images 0 = Some n)
  /\ (forall n, countSharedImage EqualFold images 0 = Some n ->
        (n = 0 \/ 3 <= n) /\ n <> 1 /\ n <> 2).
Proof.
  split.
  - intros recs ->. apply countSharedImage_total.
  - intros n Hcount.
    assert (H : n = 0 \/ 3 <= n).
    { apply (countSharedImage_zero_or_three EqualFold images 0 n); [now left|exact Hcount]. }
    split; [exact H|]. lia.
Qed.

(** C10 on a list whose second record has two of the three tags: the count
    it reaches there is dropped. *)
Lemma shared_count_never_one_or_two_witness :
  countSharedImage asciiEqualFold [Some untaggedRecord; Some twoOfThree] 0 = Some 0
  /\ (0 = 0 \/ 3 <= 0) /\ 0 <> 1 /\ 0 <> 2.
Proof.
  split; [reflexivity|].
  exact (proj2 (shared_count_never_one_or_two asciiEqualFold
                  [Some untaggedRecord; Some twoOfThree]) 0 eq_refl).
Defined.

(** C5, as amended.  In the shared-image scenario, once the three pulls have
    succeeded and the list request is answered with the records [recs] (their
    repo-tag entries within the range of [int]), the count ends at 3 exactly
    when one record has three entries that match the targets under
    [EqualFold], every earlier record fewer than three and every later record
    none; and the scenario fails its assertion on the count exactly when
    there is no such record. *)
Theorem shared_count_three_means_single_record_with_three_matches
    (St : Type) (c : ImageManagerService St) (EqualFold : string -> string -> bool)
    (s s2 : St) (recs : list Image)
    (Hrange : 3 * totalTags recs < 2 ^ 63)
    (Hpulls : outcome (pullImageList c sharedImageList s) = Passed tt)
    (Hlist : ListImages c {| ImageFilter_Image := None |}
               (final (pullImageList c sharedImageList s))
             = ((map Some recs, None), s2)) :
  (countSharedImage EqualFold (map Some recs) 0 = Some 3
   <-> singleRecordWithThree EqualFold recs)
  /\ (outcome (itListSharedImage c EqualFold s)
      = Failed "Should have three repoTags in single image in list"
      <-> ~ singleRecordWithThree EqualFold recs).
Proof.
  pose proof (countSharedImage_three EqualFold recs Hrange) as Hthree.
  split; [exact Hthree|].
  rewrite itListSharedImage_run. cbv zeta. rewrite Hpulls, Hlist.
  cbn [fst snd outcome].
  destruct (countSharedImage_total EqualFold recs 0) as [n Hn].
  rewrite Hn in *.
  destruct (Z.eqb_spec n 3) as [->|Hne].
  - split; [|intros Hno; exfalso; apply Hno, Hthree; reflexivity].
    intros Hfail. exfalso. revert Hfail.
    destruct (removeImageList_outcome c sharedImageList s2) as [Hd|[e Hd]]; rewrite Hd;
      discriminate.
  - split; [|reflexivity].
    intros _ Hsingle. apply Hthree in Hsingle. congruence.
Qed.

(** The amended C5 on the stub that lists the one record with the three
    tags. *)
Lemma shared_count_three_means_single_record_with_three_matches_witness :
  singleRecordWithThree asciiEqualFold [sharedRecord].
Proof.
  apply (proj1 (shared_count_three_means_single_record_with_three_matches
                  unit (FakeRuntime.canned [Some sharedRecord] None) asciiEqualFold
                  tt tt [sharedRecord] eq_refl eq_refl eq_refl)).
  reflexivity.
Defined.

(** C5 as stated fails: listed one record whose three repo-tags are case
    variants of one target, the scenario counts 3 and passes, and the record
    carries neither of the other two tags. *)
Lemma count_three_without_all_three_tags :
  countSharedImage asciiEqualFold [Some caseVariants] 0 = Some 3
  /\ outcome (itListSharedImage (FakeRuntime.canned [Some caseVariants] None)
                asciiEqualFold tt) = Passed tt
  /\ ~ carriesAllThree asciiEqualFold caseVariants.
Proof.
  split; [reflexivity|]. split; [reflexivity|].
  intros Hall.
  destruct (Hall "busybox:1" (or_intror (or_intror (or_introl eq_refl))))
    as (imagesTag & Hin & Hfold).
  cbn [caseVariants RepoTags In] in Hin.
  destruct Hin as [<-|[<-|[<-|[]]]]; vm_compute in Hfold; discriminate.
Qed.

(** ** The scripts of the scenarios *)

Lemma settle_passed {A : Type} (o : Outcome A) (d : Outcome unit) (a : A) :
  Ginkgo.settle o d = Passed a -> o = Passed a /\ d = Passed tt.
Proof. destruct o, d as [[]| |]; cbn [Ginkgo.settle]; intros H; try discriminate; now split. Qed.

Section Scripts.
Context {St : Type}.
Variable c : ImageManagerService St.
Variable EqualFold : string -> string -> bool.

Lemma testRemoveImage_passed (imageName : string) (s : St) :
  outcome (testRemoveImage c imageName s) = Passed tt ->
  clientCalls (trace (testRemoveImage c imageName s)) = [removeOf imageName; listFor imageName].
Proof.
  rewrite testRemoveImage_run. cbv zeta.
  destruct (RemoveImage c _ s) as [[e|] s1]; cbn [fst snd outcome trace]; [discriminate|].
  reflexivity.
Qed.

Lemma testPullPublicImage_passed (imageName : string) (s : St) :
  outcome (testPullPublicImage c imageName s) = Passed tt ->
  clientCalls (trace (testPullPublicImage c imageName s))
  = pullListRemoveScript (pulledName imageName).
Proof.
  rewrite testPullPublicImage_run. cbv zeta.
  destruct (PullImage c _ None s) as [[ref [e|]] s1]; cbn [fst snd outcome]; [discriminate|].
  destruct (ListImages c _ s1) as [[images [e|]] s2]; cbn [fst snd outcome]; [discriminate|].
  destruct (GoInt.len images =? 1); cbn [outcome]; [|discriminate].
  unfold after. cbn [outcome trace]. intros Hrest.
  rewrite clientCalls_app, (testRemoveImage_passed _ _ Hrest). reflexivity.
Qed.

Lemma testPullPublicImage_first_call (imageName : string) (s : St) :
  exists rest,
    clientCalls (trace (testPullPublicImage c imageName s))
    = pullOf (pulledName imageName) :: rest.
Proof.
  rewrite testPullPublicImage_run. cbv zeta.
  destruct (PullImage c _ None s) as [[ref [e|]] s1]; cbn [fst snd]; [now eexists|].
  destruct (ListImages c _ s1) as [[images [e|]] s2]; cbn [fst snd]; [now eexists|].
  destruct (GoInt.len images =? 1); [|now eexists].
  unfold after. cbn [trace]. rewrite clientCalls_app. now eexists.
Qed.

Lemma pullImageList_first_call (imageName : string) (rest : list string) (s : St) :
  exists more,
    clientCalls (trace (pullImageList c (imageName :: rest) s))
    = pullOf (pulledName imageName) :: more.
Proof.
  cbn [pullImageList]. rewrite bind_run.
  assert (Hcalls : clientCalls (trace (pullPublicImage c imageName s))
                   = [pullOf (pulledName imageName)]).
  { rewrite pullPublicImage_run. cbv zeta. cbn [trace].
    rewrite clientCalls_app. now destruct (Contains imageName ":"). }
  destruct (outcome (pullPublicImage c imageName s)) as [[]|msg|why]; unfold after;
    cbn [trace]; rewrite ?clientCalls_app, Hcalls; now eexists.
Qed.

Lemma itImageStatus_passed (s : St) :
  outcome (itImageStatus c s) = Passed tt ->
  clientCalls (trace (itImageStatus c s)) = statusScript.
Proof.
  rewrite itImageStatus_run. cbv zeta.
  destruct (PullImage c _ None s) as [[ref [e|]] s1]; cbn [fst snd outcome]; [discriminate|].
  cbn [outcome trace]. intros Hpass. apply settle_passed in Hpass. destruct Hpass as [_ Hd].
  rewrite !clientCalls_app, removeImage_calls. reflexivity.
Qed.

Lemma itImageStatus_first_call (s : St) :
  exists rest, clientCalls (trace (itImageStatus c s)) = pullOf testImageRef :: rest.
Proof.
  rewrite itImageStatus_run. cbv zeta.
  destruct (PullImage c _ None s) as [[ref [e|]] s1]; cbn [fst snd trace]; [now eexists|].
  rewrite clientCalls_app. now eexists.
Qed.

Lemma itListDistinctImages_passed (s : St) :
  outcome (itListDistinctImages c EqualFold s) = Passed tt ->
  clientCalls (trace (itListDistinctImages c EqualFold s)) = listScript distinctImageList.
Proof.
  rewrite itListDistinctImages_run. cbv zeta.
  pose proof (pullImageList_passed c distinctImageList s) as Hp.
  destruct (outcome (pullImageList c distinctImageList s)) as [[]|msg|why];
    cbn [outcome trace]; [|discriminate|discriminate].
  intros Hpass. apply settle_passed in Hpass. destruct Hpass as [_ Hd].
  rewrite !clientCalls_app, (Hp eq_refl), (removeImageList_passed _ _ _ Hd). reflexivity.
Qed.

Lemma itListSharedImage_passed (s : St) :
  outcome (itListSharedImage c EqualFold s) = Passed tt ->
  clientCalls (trace (itListSharedImage c EqualFold s)) = listScript sharedImageList.
Proof.
  rewrite itListSharedImage_run. cbv zeta.
  pose proof (pullImageList_passed c sharedImageList s) as Hp.
  destruct (outcome (pullImageList c sharedImageList s)) as [[]|msg|why];
    cbn [outcome trace]; [|discriminate|discriminate].
  intros Hpass. apply settle_passed in Hpass. destruct Hpass as [_ Hd].
  rewrite !clientCalls_app, (Hp eq_refl), (removeImageList_passed _ _ _ Hd). reflexivity.
Qed.

Lemma itListDistinctImages_first_call (s : St) :
  exists rest,
    clientCalls (trace (itListDistinctImages c EqualFold s)) = pullOf "busybox:1-uclibc" :: rest.
Proof.
  rewrite itListDistinctImages_run. cbv zeta.
  destruct (pullImageList_first_call "busybox:1-uclibc" ["busybox:1-musl"; "busybox:1-glibc"] s)
    as [more Hmore].
  change ("busybox:1-uclibc" :: ["busybox:1-musl"; "busybox:1-glibc"])
    with distinctImageList in Hmore.
  destruct (outcome (pullImageList c distinctImageList s)) as [[]|msg|why]; cbn [trace];
    rewrite ?clientCalls_app, Hmore; now eexists.
Qed.

Lemma itListSharedImage_first_call (s : St) :
  exists rest,
    clientCalls (trace (itListSharedImage c EqualFold s))
    = pullOf "busybox:1.26.2-uclibc" :: rest.
Proof.
  rewrite itListSharedImage_run. cbv zeta.
  destruct (pullImageList_first_call "busybox:1.26.2-uclibc" ["busybox:1-uclibc"; "busybox:1"] s)
    as [more Hmore].
  change ("busybox:1.26.2-uclibc" :: ["busybox:1-uclibc"; "busybox:1"])
    with sharedImageList in Hmore.
  destruct (outcome (pullImageList c sharedImageList s)) as [[]|msg|why]; cbn [trace];
    rewrite ?clientCalls_app, Hmore; now eexists.
Qed.

End Scripts.

(** ** Calls of the helpers *)

Section Helpers.
Context {St : Type}.
Variable c : ImageManagerService St.

Lemma pullPublicImage_calls (imageName : string) (s : St) :
  clientCalls (trace (pullPublicImage c imageName s)) = [pullOf (pulledName imageName)].
Proof.
  rewrite pullPublicImage_run. cbv zeta. cbn [trace].
  rewrite clientCalls_app. now destruct (Contains imageName ":").
Qed.

Lemma testRemoveImage_prefix (imageName : string) (s : St) :
  exists k, (1 <= k <= 2)%nat
            /\ clientCalls (trace (testRemoveImage c imageName s))
               = firstn k [removeOf imageName; listFor imageName].
Proof.
  rewrite testRemoveImage_run. cbv zeta.
  destruct (RemoveImage c _ s) as [[e|] s1]; cbn [fst snd trace].
  - exists 1%nat. split; [lia|reflexivity].
  - exists 2%nat. split; [lia|reflexivity].
Qed.

Lemma testRemoveImage_passes_iff (imageName : string) (s : St) :
  outcome (testRemoveImage c imageName s) = Passed tt
  <-> exists s1 s2,
      RemoveImage c {| ImageSpec_Image := imageName |} s = (None, s1)
      /\ ListImages c {| ImageFilter_Image := Some {| ImageSpec_Image := imageName |} |} s1
         = (([], None), s2).
Proof.
  rewrite testRemoveImage_run. cbv zeta.
  destruct (RemoveImage c _ s) as [[e|] s1]; cbn [fst snd outcome].
  - split; [discriminate|]. intros (s1' & s2 & [=] & _).
  - destruct (ListImages c _ s1) as [[images [e|]] s2] eqn:Hlist; cbn [fst snd outcome].
    + split; [discriminate|]. intros (s1' & s2' & [= <-] & Hl). congruence.
    + unfold GoInt.len. destruct images as [|img images]; cbn [List.length].
      * split; [|reflexivity]. intros _. now exists s1, s2.
      * replace (Z.of_nat (S (List.length images)) =? 0) with false
          by (symmetry; apply Z.eqb_neq; lia).
        split; [discriminate|]. intros (s1' & s2' & [= <-] & Hl). congruence.
Qed.

End Helpers.

(** ** Scenarios whose pulls fail *)

Section PullsFailed.
Context {St : Type}.
Variable c : ImageManagerService St.
Variable EqualFold : string -> string -> bool.

Lemma itImageStatus_pull_failed (s : St) :
  outcome (pullPublicImage c testImageRef s) <> Passed tt ->
  itImageStatus c s = pullPublicImage c testImageRef s.
Proof.
  rewrite itImageStatus_run, pullPublicImage_run.
  change (pulledName testImageRef) with testImageRef.
  change (Contains testImageRef ":") with true. cbv zeta. cbn [outcome app].
  destruct (PullImage c _ None s) as [[ref [e|]] s1]; cbn [fst snd]; [reflexivity|].
  intros H. now contradiction H.
Qed.

Lemma itListDistinctImages_pulls_failed (s : St) :
  outcome (pullImageList c distinctImageList s) <> Passed tt ->
  itListDistinctImages c EqualFold s = pullImageList c distinctImageList s.
Proof.
  rewrite itListDistinctImages_run. cbv zeta.
  destruct (pullImageList c distinctImageList s) as [[[]|msg|why] s1 t1];
    cbn [outcome final trace]; [|reflexivity|reflexivity].
  intros H. now contradiction H.
Qed.

Lemma itListSharedImage_pulls_failed (s : St) :
  outcome (pullImageList c sharedImageList s) <> Passed tt ->
  itListSharedImage c EqualFold s = pullImageList c sharedImageList s.
Proof.
  rewrite itListSharedImage_run. cbv zeta.
  destruct (pullImageList c sharedImageList s) as [[[]|msg|why] s1 t1];
    cbn [outcome final trace]; [|reflexivity|reflexivity].
  intros H. now contradiction H.
Qed.

End PullsFailed.

(** ** Runs up to the first error *)

Lemma firstn_script_pulls (imageList : list string) (k : nat) :
  (k <= List.length imageList)%nat ->
  firstn k (listScript imageList) = firstn k (map pullOf imageList).
Proof.
  intros Hk. unfold listScript. rewrite firstn_app, length_map.
  replace (k - List.length imageList)%nat with 0%nat by lia.
  cbn [firstn]. apply app_nil_r.
Qed.

Lemma firstn_script_removals (imageList : list string) (k : nat) :
  firstn (List.length imageList + 1 + k) (listScript imageList)
  = (map pullOf imageList ++ listAll :: firstn k (map removeOf imageList))%list.
Proof.
  unfold listScript. rewrite firstn_app, length_map.
  rewrite firstn_all2 by (rewrite length_map; lia).
  replace (List.length imageList + 1 + k - List.length imageList)%nat with (S k) by lia.
  reflexivity.
Qed.

Section UpToErrorRuns.
Context {St : Type}.
Variable c : ImageManagerService St.

Lemma pullsUpToError_count (names : list string) (s : St) :
  (fst (fst (pullsUpToError c names s)) <= List.length names)%nat
  /\ (names <> [] -> (1 <= fst (fst (pullsUpToError c names s)))%nat)
  /\ (snd (fst (pullsUpToError c names s)) = None ->
      fst (fst (pullsUpToError c names s)) = List.length names).
Proof.
  revert s. induction names as [|n names IH]; intros s; cbn [pullsUpToError List.length].
  - cbn [fst snd]. repeat split; [lia|congruence].
  - cbv zeta. destruct (snd (fst (PullImage c _ None s))) as [e|]; cbn [fst snd].
    + repeat split; [lia|lia|discriminate].
    + destruct (IH (snd (PullImage c {| ImageSpec_Image := n |} None s))) as (Hle & _ & Hall).
      repeat split; [lia|lia|]. intros Hnone. now rewrite (Hall Hnone).
Qed.

Lemma removalsUpToError_count (names : list string) (s : St) :
  (fst (fst (removalsUpToError c names s)) <= List.length names)%nat
  /\ (names <> [] -> (1 <= fst (fst (removalsUpToError c names s)))%nat)
  /\ (snd (fst (removalsUpToError c names s)) = None ->
      fst (fst (removalsUpToError c names s)) = List.length names).
Proof.
  revert s. induction names as [|n names IH]; intros s; cbn [removalsUpToError List.length].
  - cbn [fst snd]. repeat split; [lia|congruence].
  - cbv zeta. destruct (fst (RemoveImage c _ s)) as [e|]; cbn [fst snd].
    + repeat split; [lia|lia|discriminate].
    + destruct (IH (snd (RemoveImage c {| ImageSpec_Image := n |} s))) as (Hle & _ & Hall).
      repeat split; [lia|lia|]. intros Hnone. now rewrite (Hall Hnone).
Qed.

Lemma removalsUpToError_no_error (names : list string) (s : St) :
  (forall spec st, fst (RemoveImage c spec st) = None) ->
  snd (fst (removalsUpToError c names s)) = None.
Proof.
  intros Hok. revert s. induction names as [|n names IH]; intros s;
    cbn [removalsUpToError]; [reflexivity|].
  cbv zeta. rewrite Hok. cbn [fst snd]. apply IH.
Qed.

(** [pullImageList] is the pulls of the defaulted names up to the first
    error: the same calls, the same state, and the failure of the pull wrapper
    around that error. *)
Lemma pullImageList_up_to_error (imageList : list string) (s : St) :
  clientCalls (trace (pullImageList c imageList s))
  = firstn (fst (fst (pullsUpToError c (map pulledName imageList) s)))
      (map pullOf (map pulledName imageList))
  /\ outcome (pullImageList c imageList s)
     = match snd (fst (pullsUpToError c (map pulledName imageList) s)) with
       | None => Passed tt
       | Some e => Failed ("failed to pull image: " ++ e)
       end
  /\ final (pullImageList c imageList s)
     = snd (pullsUpToError c (map pulledName imageList) s).
Proof.
  revert s. induction imageList as [|imageName rest IH]; intros s;
    cbn [pullImageList map pullsUpToError].
  - repeat split.
  - rewrite bind_run.
    pose proof (pullPublicImage_calls c imageName s) as Hcalls.
    revert Hcalls. rewrite pullPublicImage_run. cbv zeta. cbn [outcome final trace].
    destruct (PullImage c _ None s) as [[ref [e|]] s1]; cbn [fst snd]; intros Hcalls.
    + cbn [outcome final trace firstn]. now rewrite Hcalls.
    + unfold after. cbn [outcome final trace firstn].
      destruct (IH s1) as (Hc & Ho & Hf).
      rewrite clientCalls_app, Hcalls, Hc, Ho, Hf. repeat split.
Qed.

(** [removeImageList] is the removals of the names, as given, up to the first
    error. *)
Lemma removeImageList_up_to_error (imageList : list string) (s : St) :
  clientCalls (trace (removeImageList c imageList s))
  = firstn (fst (fst (removalsUpToError c imageList s))) (map removeOf imageList)
  /\ outcome (removeImageList c imageList s)
     = match snd (fst (removalsUpToError c imageList s)) with
       | None => Passed tt
       | Some e => Failed ("failed to remove image: " ++ e)
       end
  /\ final (removeImageList c imageList s) = snd (removalsUpToError c imageList s).
Proof.
  revert s. induction imageList as [|imageName rest IH]; intros s;
    cbn [removeImageList map removalsUpToError].
  - repeat split.
  - rewrite bind_run.
    pose proof (removeImage_calls c imageName s) as Hcalls.
    revert Hcalls. rewrite removeImage_run. cbv zeta. cbn [outcome final trace].
    destruct (RemoveImage c _ s) as [[e|] s1]; cbn [fst snd]; intros Hcalls.
    + cbn [outcome final trace firstn]. now rewrite Hcalls.
    + unfold after. cbn [outcome final trace firstn].
      destruct (IH s1) as (Hc & Ho & Hf).
      rewrite clientCalls_app, Hcalls, Hc, Ho, Hf. repeat split.
Qed.

(** When the pull of [imageName] errors after the pulls of [pre] have passed,
    [pullImageList] ends there: nothing of [post] is requested. *)
Lemma pullImageList_ends_at_error (pre post : list string) (imageName : string) (e : error)
    (s : St) :
  outcome (pullImageList c pre s) = Passed tt ->
  snd (fst (PullImage c {| ImageSpec_Image := pulledName imageName |} None
              (final (pullImageList c pre s)))) = Some e ->
  outcome (pullImageList c (pre ++ imageName :: post) s)
  = Failed ("failed to pull image: " ++ e)
  /\ clientCalls (trace (pullImageList c (pre ++ imageName :: post) s))
     = map pullOf (map pulledName (pre ++ [imageName]))
  /\ final (pullImageList c (pre ++ imageName :: post) s)
     = snd (PullImage c {| ImageSpec_Image := pulledName imageName |} None
              (final (pullImageList c pre s))).
Proof.
  revert s. induction pre as [|p pre IH]; intros s; cbn [app pullImageList map].
  - cbn [Ginkgo.ret final]. intros _ Herr.
    rewrite bind_run, pullPublicImage_run. cbv zeta. cbn [outcome final trace].
    rewrite Herr. cbn [outcome final trace].
    rewrite clientCalls_app. split; [reflexivity|]. split; [|reflexivity].
    now destruct (Contains imageName ":").
  - rewrite !bind_run.
    pose proof (pullPublicImage_calls c p s) as Hcalls.
    destruct (outcome (pullPublicImage c p s)) as [[]|msg|why]; cbn [outcome];
      [|discriminate|discriminate].
    unfold after. cbn [outcome final trace]. intros Hpre Herr.
    destruct (IH _ Hpre Herr) as (Ho & Hc & Hf).
    rewrite clientCalls_app, Hcalls, Ho, Hc, Hf. repeat split.
Qed.

(** The same for [removeImageList]. *)
Lemma removeImageList_ends_at_error (pre post : list string) (imageName : string) (e : error)
    (s : St) :
  outcome (removeImageList c pre s) = Passed tt ->
  fst (RemoveImage c {| ImageSpec_Image := imageName |} (final (removeImageList c pre s)))
  = Some e ->
  outcome (removeImageList c (pre ++ imageName :: post) s)
  = Failed ("failed to remove image: " ++ e)
  /\ clientCalls (trace (removeImageList c (pre ++ imageName :: post) s))
     = map removeOf (pre ++ [imageName])
  /\ final (removeImageList c (pre ++ imageName :: post) s)
     = snd (RemoveImage c {| ImageSpec_Image := imageName |}
              (final (removeImageList c pre s))).
Proof.
  revert s. induction pre as [|p pre IH]; intros s; cbn [app removeImageList map].
  - cbn [Ginkgo.ret final]. intros _ Herr.
    rewrite bind_run, removeImage_run. cbv zeta. cbn [outcome final trace].
    rewrite Herr. repeat split.
  - rewrite !bind_run.
    pose proof (removeImage_calls c p s) as Hcalls.
    destruct (outcome (removeImage c p s)) as [[]|msg|why]; cbn [outcome];
      [|discriminate|discriminate].
    unfold after. cbn [outcome final trace]. intros Hpre Herr.
    destruct (IH _ Hpre Herr) as (Ho & Hc & Hf).
    rewrite clientCalls_app, Hcalls, Ho, Hc, Hf. repeat split.
Qed.

Lemma testPullPublicImage_follows (imageName : string) (s : St) :
  followsScript (testPullPublicImage c imageName s)
    (pullListRemoveScript (pulledName imageName)).
Proof.
  split; [|apply testPullPublicImage_passed].
  rewrite testPullPublicImage_run. cbv zeta. cbn [pullListRemoveScript List.length].
  destruct (PullImage c _ None s) as [[ref [e|]] s1]; cbn [fst snd].
  { exists 1%nat. split; [lia|reflexivity]. }
  destruct (ListImages c _ s1) as [[images [e|]] s2]; cbn [fst snd].
  { exists 2%nat. split; [lia|reflexivity]. }
  destruct (GoInt.len images =? 1).
  - destruct (testRemoveImage_prefix c (pulledName imageName) s2) as (k & Hk & Hcalls).
    exists (2 + k)%nat. split; [lia|].
    unfold after. cbn [trace]. rewrite clientCalls_app, Hcalls. reflexivity.
  - exists 2%nat. split; [lia|reflexivity].
Qed.

(** Once its pull has passed, the status scenario asks for the status and
    then, whatever came of that, runs the removal from the state the status
    request left; the removal is its last call. *)
Lemma itImageStatus_after_pull (s : St) :
  outcome (pullPublicImage c testImageRef s) = Passed tt ->
  trace (itImageStatus c s)
  = (trace (pullPublicImage c testImageRef s)
     ++ [EvBy "Get image status"; statusOf testImageRef]
     ++ trace (removeImage c testImageRef
                 (snd (ImageStatus c {| ImageSpec_Image := testImageRef |}
                         (final (pullPublicImage c testImageRef s))))))%list
  /\ final (itImageStatus c s)
     = snd (RemoveImage c {| ImageSpec_Image := testImageRef |}
              (snd (ImageStatus c {| ImageSpec_Image := testImageRef |}
                      (final (pullPublicImage c testImageRef s)))))
  /\ clientCalls (trace (itImageStatus c s)) = statusScript.
Proof.
  rewrite itImageStatus_run, pullPublicImage_run.
  change (pulledName testImageRef) with testImageRef.
  change (Contains testImageRef ":") with true. cbv zeta. cbn [outcome final trace].
  destruct (PullImage c _ None s) as [[ref [e|]] s1]; cbn [fst snd outcome final trace];
    [discriminate|]. intros _.
  split; [reflexivity|]. split.
  - rewrite removeImage_run. reflexivity.
  - rewrite !clientCalls_app, removeImage_calls. reflexivity.
Qed.

Lemma itImageStatus_follows (s : St) : followsScript (itImageStatus c s) statusScript.
Proof.
  split; [|apply itImageStatus_passed].
  destruct (pullPublicImage_outcome c testImageRef s) as [Hp|[e Hp]].
  - exists 3%nat. split; [cbn; lia|].
    now rewrite (proj2 (proj2 (itImageStatus_after_pull s Hp))).
  - exists 1%nat. split; [cbn; lia|].
    rewrite itImageStatus_pull_failed by (rewrite Hp; discriminate).
    apply (pullPublicImage_calls c testImageRef).
Qed.

End UpToErrorRuns.

Section DeferredLists.
Context {St : Type}.
Variable c : ImageManagerService St.
Variable EqualFold : string -> string -> bool.

Lemma pullImageList_passed_all (imageList : list string) (s : St) :
  outcome (pullImageList c imageList s) = Passed tt ->
  clientCalls (trace (pullImageList c imageList s)) = map pullOf (map pulledName imageList).
Proof.
  destruct (pullImageList_up_to_error c imageList s) as (Hc & Ho & _).
  rewrite Ho, Hc. intros Hpass.
  destruct (pullsUpToError_count c (map pulledName imageList) s) as (_ & _ & Hall).
  destruct (snd (fst (pullsUpToError c (map pulledName imageList) s))); [discriminate|].
  rewrite (Hall eq_refl). apply firstn_all2. rewrite !length_map. lia.
Qed.

Lemma itListDistinctImages_after_pulls (s : St) :
  outcome (pullImageList c distinctImageList s) = Passed tt ->
  trace (itListDistinctImages c EqualFold s)
  = (trace (pullImageList c distinctImageList s) ++ [listAll]
     ++ trace (removeImageList c distinctImageList
                 (snd (ListImages c {| ImageFilter_Image := None |}
                         (final (pullImageList c distinctImageList s))))))%list
  /\ final (itListDistinctImages c EqualFold s)
     = final (removeImageList c distinctImageList
                (snd (ListImages c {| ImageFilter_Image := None |}
                        (final (pullImageList c distinctImageList s))))).
Proof.
  intros Hpulls. rewrite itListDistinctImages_run. cbv zeta. rewrite Hpulls.
  split; reflexivity.
Qed.

Lemma itListSharedImage_after_pulls (s : St) :
  outcome (pullImageList c sharedImageList s) = Passed tt ->
  trace (itListSharedImage c EqualFold s)
  = (trace (pullImageList c sharedImageList s) ++ [listAll]
     ++ trace (removeImageList c sharedImageList
                 (snd (ListImages c {| ImageFilter_Image := None |}
                         (final (pullImageList c sharedImageList s))))))%list
  /\ final (itListSharedImage c EqualFold s)
     = final (removeImageList c sharedImageList
                (snd (ListImages c {| ImageFilter_Image := None |}
                        (final (pullImageList c sharedImageList s))))).
Proof.
  intros Hpulls. rewrite itListSharedImage_run. cbv zeta. rewrite Hpulls.
  split; reflexivity.
Qed.

(** The calls of a run that pulls a list of tagged names, lists with no
    filter and runs the removal of the list, whatever came of the list
    request and of what follows it. *)
Lemma deferred_list_calls (imageList : list string) (s s2 : St) (r : Run St unit) :
  map pulledName imageList = imageList ->
  imageList <> [] ->
  outcome (pullImageList c imageList s) = Passed tt ->
  trace r = (trace (pullImageList c imageList s) ++ [listAll]
             ++ trace (removeImageList c imageList s2))%list ->
  exists k, (1 <= k <= List.length imageList)%nat
            /\ clientCalls (trace r)
               = (map pullOf imageList ++ listAll :: firstn k (map removeOf imageList))%list
            /\ ((forall spec st, fst (RemoveImage c spec st) = None) ->
                k = List.length imageList).
Proof.
  intros Htagged Hne Hpulls Htrace.
  destruct (removeImageList_up_to_error c imageList s2) as (Hc & _ & _).
  destruct (removalsUpToError_count c imageList s2) as (Hle & Hpos & Hall).
  exists (fst (fst (removalsUpToError c imageList s2))).
  split; [split; [now apply Hpos|exact Hle]|]. split.
  - rewrite Htrace, !clientCalls_app, (pullImageList_passed_all _ _ Hpulls), Htagged, Hc.
    reflexivity.
  - intros Hok. apply Hall. now apply removalsUpToError_no_error.
Qed.

Lemma deferred_list_follows (imageList : list string) (s s2 : St) (r : Run St unit) :
  map pulledName imageList = imageList ->
  imageList <> [] ->
  (outcome (pullImageList c imageList s) <> Passed tt -> r = pullImageList c imageList s) ->
  (outcome (pullImageList c imageList s) = Passed tt ->
   trace r = (trace (pullImageList c imageList s) ++ [listAll]
              ++ trace (removeImageList c imageList s2))%list) ->
  exists k, (1 <= k <= List.length (listScript imageList))%nat
            /\ clientCalls (trace r) = firstn k (listScript imageList).
Proof.
  intros Htagged Hne Hfailed Hpassed.
  assert (Hlen : List.length (listScript imageList) = (2 * List.length imageList + 1)%nat).
  { unfold listScript. rewrite !length_app, !length_map. cbn [List.length]. lia. }
  destruct (pullImageList_outcome c imageList s) as [Hp|[e Hp]].
  - destruct (deferred_list_calls imageList s s2 r Htagged Hne Hp (Hpassed Hp))
      as (k & Hk & Hcalls & _).
    exists (List.length imageList + 1 + k)%nat. split; [lia|].
    now rewrite firstn_script_removals.
  - rewrite Hfailed by (rewrite Hp; discriminate).
    destruct (pullImageList_up_to_error c imageList s) as (Hc & _ & _).
    destruct (pullsUpToError_count c (map pulledName imageList) s) as (Hle & Hpos & _).
    rewrite Htagged in *.
    exists (fst (fst (pullsUpToError c imageList s))).
    split; [split; [now apply Hpos|lia]|].
    rewrite Hc. symmetry. now apply firstn_script_pulls.
Qed.

Lemma itListDistinctImages_follows (s : St) :
  followsScript (itListDistinctImages c EqualFold s) (listScript distinctImageList).
Proof.
  split; [|apply itListDistinctImages_passed].
  apply (deferred_list_follows distinctImageList s
           (snd (ListImages c {| ImageFilter_Image := None |}
                   (final (pullImageList c distinctImageList s))))).
  - reflexivity.
  - discriminate.
  - apply itListDistinctImages_pulls_failed.
  - intros Hp. apply (itListDistinctImages_after_pulls s Hp).
Qed.

Lemma itListSharedImage_follows (s : St) :
  followsScript (itListSharedImage c EqualFold s) (listScript sharedImageList).
Proof.
  split; [|apply itListSharedImage_passed].
  apply (deferred_list_follows sharedImageList s
           (snd (ListImages c {| ImageFilter_Image := None |}
                   (final (pullImageList c sharedImageList s))))).
  - reflexivity.
  - discriminate.
  - apply itListSharedImage_pulls_failed.
  - intros Hp. apply (itListSharedImage_after_pulls s Hp).
Qed.

End DeferredLists.

(** ** The claims about the scenarios *)

(** C6, as amended.  Every scenario executes a fixed script of its own, and
    no run deviates from it or branches off it: on every runtime and from
    every state, whether the run passes or fails, its calls are the first
    calls of the scenario's script, in the script's order and at least the
    first of them, and a run that passes has made them all.  The three pull
    scenarios pull, list with the filter for the image, remove, and list with
    that filter again; the status scenario pulls, asks for the status and
    removes; the two list scenarios pull their three images, list with no
    filter and remove the three images.  The last three make no list request
    after the removal. *)
Theorem scenarios_follow_their_scripts
    (St : Type) (c : ImageManagerService St) (EqualFold : string -> string -> bool) (s : St) :
  followsScript (itPullWithTag c s)
    [pullOf "busybox:1.26.2"; listFor "busybox:1.26.2"; removeOf "busybox:1.26.2";
     listFor "busybox:1.26.2"]
  /\ followsScript (itPullWithoutTag c s)
       [pullOf "busybox:latest"; listFor "busybox:latest"; removeOf "busybox:latest";
        listFor "busybox:latest"]
  /\ followsScript (itPullWithDigest c s)
       [pullOf busyboxDigestRef; listFor busyboxDigestRef; removeOf busyboxDigestRef;
        listFor busyboxDigestRef]
  /\ followsScript (itImageStatus c s)
       [pullOf "busybox:1.26.2"; statusOf "busybox:1.26.2"; removeOf "busybox:1.26.2"]
  /\ followsScript (itListDistinctImages c EqualFold s)
       [pullOf "busybox:1-uclibc"; pullOf "busybox:1-musl"; pullOf "busybox:1-glibc";
        listAll;
        removeOf "busybox:1-uclibc"; removeOf "busybox:1-musl"; removeOf "busybox:1-glibc"]
  /\ followsScript (itListSharedImage c EqualFold s)
       [pullOf "busybox:1.26.2-uclibc"; pullOf "busybox:1-uclibc"; pullOf "busybox:1";
        listAll;
        removeOf "busybox:1.26.2-uclibc"; removeOf "busybox:1-uclibc"; removeOf "busybox:1"].
Proof.
  split; [|split; [|split; [|split; [|split]]]].
  - apply (testPullPublicImage_follows c testImageRef).
  - apply (testPullPublicImage_follows c testImageName).
  - apply (testPullPublicImage_follows c busyboxDigestRef).
  - apply itImageStatus_follows.
  - apply itListDistinctImages_follows.
  - apply itListSharedImage_follows.
Qed.

(** The amended C6 on the in-memory runtime, for the status scenario, which
    passes there; and on the runtime that stores qualified names, for the
    tagged pull scenario, which fails there after its second call. *)
Lemma scenarios_follow_their_scripts_witness :
  clientCalls (trace (itImageStatus FakeRuntime.client []))
  = [pullOf "busybox:1.26.2"; statusOf "busybox:1.26.2"; removeOf "busybox:1.26.2"]
  /\ (exists k, (1 <= k <= 4)%nat
                /\ clientCalls (trace (itPullWithTag FakeRuntime.qualifying []))
                   = firstn k [pullOf "busybox:1.26.2"; listFor "busybox:1.26.2";
                               removeOf "busybox:1.26.2"; listFor "busybox:1.26.2"]).
Proof.
  split.
  - apply (proj2 (proj1 (proj2 (proj2 (proj2
             (scenarios_follow_their_scripts _ FakeRuntime.client asciiEqualFold [])))))).
    reflexivity.
  - exact (proj1 (proj1
             (scenarios_follow_their_scripts _ FakeRuntime.qualifying asciiEqualFold []))).
Defined.

(** C6 as stated fails: the status scenario passes on the in-memory runtime
    and its calls are not of the form pull, list, remove, list; it makes no
    list request at all. *)
Lemma status_scenario_lists_nothing :
  outcome (itImageStatus FakeRuntime.client []) = Passed tt
  /\ listFilters (trace (itImageStatus FakeRuntime.client [])) = []
  /\ ~ specifiedScript (clientCalls (trace (itImageStatus FakeRuntime.client []))).
Proof.
  split; [reflexivity|]. split; [reflexivity|].
  intros (pulled & filter & filter' & Hcalls).
  apply (f_equal listFilters) in Hcalls.
  rewrite !listFilters_app in Hcalls.
  change (listFilters (clientCalls (trace (itImageStatus FakeRuntime.client []))))
    with (@nil ImageFilter) in Hcalls.
  cbn [listFilters app] in Hcalls.
  destruct (listFilters (map pullOf pulled)); discriminate.
Qed.

(** C7, as amended.  In the status scenario and in the two list scenarios the
    removal is deferred once the pulls have passed, and it then runs when the
    scenario is left, whatever becomes of the calls and assertions in
    between.  The status scenario always goes on to the status request and
    then runs the removal of its image, from the state the status request
    left: the removal is its last call and leaves the final state.  A list
    scenario always goes on to the list request and then runs the removal of
    its list, from the state the list request left: the scenario ends where
    that removal ends, its calls after the list request are removals of the
    first images of the list, at least the first, and all three, in order,
    when no removal errors. *)
Theorem deferred_removal_runs_however_the_body_ends
    (St : Type) (c : ImageManagerService St) (EqualFold : string -> string -> bool) (s : St) :
  (outcome (pullPublicImage c testImageRef s) = Passed tt ->
   trace (itImageStatus c s)
   = (trace (pullPublicImage c testImageRef s)
      ++ [EvBy "Get image status"; statusOf testImageRef]
      ++ trace (removeImage c testImageRef
                  (snd (ImageStatus c {| ImageSpec_Image := testImageRef |}
                          (final (pullPublicImage c testImageRef s))))))%list
   /\ final (itImageStatus c s)
      = snd (RemoveImage c {| ImageSpec_Image := testImageRef |}
               (snd (ImageStatus c {| ImageSpec_Image := testImageRef |}
                       (final (pullPublicImage c testImageRef s)))))
   /\ clientCalls (trace (itImageStatus c s))
      = [pullOf testImageRef; statusOf testImageRef; removeOf testImageRef]
   /\ removals (trace (itImageStatus c s)) = [testImageRef])
  /\ (outcome (pullImageList c distinctImageList s) = Passed tt ->
      trace (itListDistinctImages c EqualFold s)
      = (trace (pullImageList c distinctImageList s) ++ [listAll]
         ++ trace (removeImageList c distinctImageList
                     (snd (ListImages c {| ImageFilter_Image := None |}
                             (final (pullImageList c distinctImageList s))))))%list
      /\ final (itListDistinctImages c EqualFold s)
         = final (removeImageList c distinctImageList
                    (snd (ListImages c {| ImageFilter_Image := None |}
                            (final (pullImageList c distinctImageList s)))))
      /\ exists k, (1 <= k <= 3)%nat
                   /\ clientCalls (trace (itListDistinctImages c EqualFold s))
                      = (map pullOf distinctImageList
                         ++ listAll :: firstn k (map removeOf distinctImageList))%list
                   /\ removals (trace (itListDistinctImages c EqualFold s))
                      = firstn k distinctImageList
                   /\ ((forall spec st, fst (RemoveImage c spec st) = None) -> k = 3%nat))
  /\ (outcome (pullImageList c sharedImageList s) = Passed tt ->
      trace (itListSharedImage c EqualFold s)
      = (trace (pullImageList c sharedImageList s) ++ [listAll]
         ++ trace (removeImageList c sharedImageList
                     (snd (ListImages c {| ImageFilter_Image := None |}
                             (final (pullImageList c sharedImageList s))))))%list
      /\ final (itListSharedImage c EqualFold s)
         = final (removeImageList c sharedImageList
                    (snd (ListImages c {| ImageFilter_Image := None |}
                            (final (pullImageList c sharedImageList s)))))
      /\ exists k, (1 <= k <= 3)%nat
                   /\ clientCalls (trace (itListSharedImage c EqualFold s))
                      = (map pullOf sharedImageList
                         ++ listAll :: firstn k (map removeOf sharedImageList))%list
                   /\ removals (trace (itListSharedImage c EqualFold s))
                      = firstn k sharedImageList
                   /\ ((forall spec st, fst (RemoveImage c spec st) = None) -> k = 3%nat)).
Proof.
  split; [|split].
  - intros Hpull.
    destruct (itImageStatus_after_pull c s Hpull) as (Ht & Hf & Hc).
    split; [exact Ht|]. split; [exact Hf|]. split; [exact Hc|].
    rewrite <- removals_clientCalls, Hc. reflexivity.
  - intros Hpulls.
    destruct (itListDistinctImages_after_pulls c EqualFold s Hpulls) as (Ht & Hf).
    split; [exact Ht|]. split; [exact Hf|].
    destruct (deferred_list_calls c distinctImageList s _ (itListDistinctImages c EqualFold s)
                eq_refl ltac:(discriminate) Hpulls Ht) as (k & Hk & Hc & Hall).
    exists k. split; [exact Hk|]. split; [exact Hc|]. split; [|exact Hall].
    rewrite <- removals_clientCalls, Hc, removals_app, removals_pulls.
    cbn [app removals listAll]. rewrite firstn_map. apply removals_removes.
  - intros Hpulls.
    destruct (itListSharedImage_after_pulls c EqualFold s Hpulls) as (Ht & Hf).
    split; [exact Ht|]. split; [exact Hf|].
    destruct (deferred_list_calls c sharedImageList s _ (itListSharedImage c EqualFold s)
                eq_refl ltac:(discriminate) Hpulls Ht) as (k & Hk & Hc & Hall).
    exists k. split; [exact Hk|]. split; [exact Hc|]. split; [|exact Hall].
    rewrite <- removals_clientCalls, Hc, removals_app, removals_pulls.
    cbn [app removals listAll]. rewrite firstn_map. apply removals_removes.
Qed.

(** The amended C7 on the runtime that stores qualified names: the status
    request finds no record, the body panics on the nil status, and the
    removal is run all the same, as the last call. *)
Lemma deferred_removal_runs_however_the_body_ends_witness :
  outcome (itImageStatus FakeRuntime.qualifying [])
  = Panicked "invalid memory address or nil pointer dereference"
  /\ clientCalls (trace (itImageStatus FakeRuntime.qualifying []))
     = [pullOf testImageRef; statusOf testImageRef; removeOf testImageRef].
Proof.
  split; [reflexivity|].
  apply (proj1 (deferred_removal_runs_however_the_body_ends
                  _ FakeRuntime.qualifying asciiEqualFold [])).
  reflexivity.
Defined.

(** C7 as stated fails for the pull scenarios: on the runtime that stores
    qualified names the pull succeeds, the assertion on the filtered list
    fails, no removal is asked for and the image stays in the store. *)
Lemma failed_assertion_skips_the_removal :
  outcome (pullPublicImage FakeRuntime.qualifying testImageRef []) = Passed tt
  /\ outcome (itPullWithTag FakeRuntime.qualifying []) = Failed "Should have one image in list"
  /\ removals (trace (itPullWithTag FakeRuntime.qualifying [])) = []
  /\ final (itPullWithTag FakeRuntime.qualifying []) <> [].
Proof.
  repeat split; try reflexivity. vm_compute. discriminate.
Qed.

(** On the in-memory runtime, from an empty store, all six scenarios pass and
    leave the store empty. *)
Example suite_passes_on_the_in_memory_runtime :
  map (fun scenario => (outcome (snd scenario []), final (snd scenario [])))
      (suite FakeRuntime.client asciiEqualFold)
  = repeat (Passed tt, []) 6.
Proof. reflexivity. Qed.

(** C8, as amended.  The suite has exactly six scenarios.  Each starts with a
    call of the pull wrapper; the calls of a passing run are the scenario's
    script, the same on every runtime and from every state; and each
    scenario asserts on what the wrappers returned: on a stub none of whose
    calls errors, which lists nothing and reports a record without
    repo-tags, every scenario fails on an assertion of its own. *)
Theorem suite_is_six_fixed_scenarios :
  (forall (St : Type) (c : ImageManagerService St) (EqualFold : string -> string -> bool),
      List.length (suite c EqualFold) = 6%nat
      /\ map fst (suite c EqualFold)
         = [ "public image with tag should be pulled and removed [Conformance]";
             "public image without tag should be pulled and removed [Conformance]";
             "public image with digest should be pulled and removed [Conformance]";
             "image status get image fields should not be empty [Conformance]";
             "listImage should get exactly 3 image in the result list [Conformance]";
             "listImage should get exactly 3 repoTags in the result image [Conformance]" ])
  /\ (forall (St : Type) (c : ImageManagerService St) (EqualFold : string -> string -> bool)
             (s : St),
         Forall (fun scenario =>
                   exists imageName rest,
                     clientCalls (trace (snd scenario s)) = pullOf imageName :: rest)
                (suite c EqualFold)
         /\ Forall2 (fun scenario script =>
                       outcome (snd scenario s) = Passed tt ->
                       clientCalls (trace (snd scenario s)) = script)
                    (suite c EqualFold) suiteScripts)
  /\ map (fun scenario => outcome (snd scenario tt))
         (suite (FakeRuntime.canned [] (Some untaggedRecord)) asciiEqualFold)
     = [ Failed "Should have one image in list";
         Failed "Should have one image in list";
         Failed "Should have one image in list";
         Failed "Should have repoTags in image";
         Failed "Should have the specified three images in list";
         Failed "Should have three repoTags in single image in list" ].
Proof.
  split; [|split].
  - intros St c EqualFold. split; reflexivity.
  - intros St c EqualFold s. split.
    + unfold suite. repeat constructor; cbn [snd].
      * destruct (testPullPublicImage_first_call c testImageRef s) as [rest H]. eauto.
      * destruct (testPullPublicImage_first_call c testImageName s) as [rest H]. eauto.
      * destruct (testPullPublicImage_first_call c busyboxDigestRef s) as [rest H]. eauto.
      * destruct (itImageStatus_first_call c s) as [rest H]. eauto.
      * destruct (itListDistinctImages_first_call c EqualFold s) as [rest H]. eauto.
      * destruct (itListSharedImage_first_call c EqualFold s) as [rest H]. eauto.
    + unfold suite, suiteScripts. repeat constructor; cbn [snd].
      * apply (testPullPublicImage_passed c testImageRef).
      * apply (testPullPublicImage_passed c testImageName).
      * apply (testPullPublicImage_passed c busyboxDigestRef).
      * apply itImageStatus_passed.
      * apply itListDistinctImages_passed.
      * apply itListSharedImage_passed.
  - reflexivity.
Qed.

(** C8 as stated fails: the suite does not have five scenarios. *)
Lemma suite_is_not_five_scenarios :
  List.length (suite FakeRuntime.client asciiEqualFold) <> 5%nat.
Proof. cbn. discriminate. Qed.

(** * Further properties of the helpers and scenarios *)

(** X1.  What [pullPublicImage] emits before its pull request is the line
    about the default tag, exactly when the name it is given holds no [':'],
    and then the step line that names the image it pulls.  What
    [testPullPublicImage] emits before its pull request is that step line
    alone, whatever name it is given: it appends [":latest"] itself before it
    calls [pullPublicImage], so the default is applied without the line about
    it. *)
Theorem default_tag_line_logged_by_pullPublicImage_only
    (St : Type) (c : ImageManagerService St) (imageName : string) (s : St) :
  beforePull (trace (pullPublicImage c imageName s))
  = ((if Contains imageName ":" then [] else [EvLogf "Use latest as default image tag."])
     ++ [EvBy ("Pull image : " ++ pulledName imageName)])%list
  /\ beforePull (trace (testPullPublicImage c imageName s))
     = [EvBy ("Pull image : " ++ pulledName imageName)]
  /\ pullRequests (trace (pullPublicImage c imageName s)) = [pulledName imageName]
  /\ pullRequests (trace (testPullPublicImage c imageName s)) = [pulledName imageName].
Proof.
  split; [|split; [|split]].
  - rewrite pullPublicImage_run. cbv zeta. cbn [trace].
    now destruct (Contains imageName ":").
  - rewrite testPullPublicImage_run. cbv zeta.
    destruct (PullImage c _ None s) as [[ref [e|]] s1]; cbn [fst snd]; [reflexivity|].
    destruct (ListImages c _ s1) as [[images [e|]] s2]; cbn [fst snd]; [reflexivity|].
    destruct (GoInt.len images =? 1); reflexivity.
  - apply pullPublicImage_requests.
  - apply testPullPublicImage_requests.
Qed.

(** X2.  On every runtime and from every state, whether it passes or fails,
    [testPullPublicImage] makes between one and four calls, and they are the
    first calls of its script for the name it pulls: pull, list with the
    filter for that name, remove, list with the filter again.  It never
    makes a call out of this order, and every call is about the one name. *)
Theorem testPullPublicImage_calls_are_a_prefix_of_its_script
    (St : Type) (c : ImageManagerService St) (imageName : string) (s : St) :
  exists k, (1 <= k <= 4)%nat
            /\ clientCalls (trace (testPullPublicImage c imageName s))
               = firstn k (pullListRemoveScript (pulledName imageName)).
Proof.
  rewrite testPullPublicImage_run. cbv zeta.
  destruct (PullImage c _ None s) as [[ref [e|]] s1]; cbn [fst snd].
  { exists 1%nat. split; [lia|reflexivity]. }
  destruct (ListImages c _ s1) as [[images [e|]] s2]; cbn [fst snd].
  { exists 2%nat. split; [lia|reflexivity]. }
  destruct (GoInt.len images =? 1).
  - destruct (testRemoveImage_prefix c (pulledName imageName) s2) as (k & Hk & Hcalls).
    exists (2 + k)%nat. split; [lia|].
    unfold after. cbn [trace]. rewrite clientCalls_app, Hcalls. reflexivity.
  - exists 2%nat. split; [lia|reflexivity].
Qed.

(** X3.  [testPullPublicImage] passes exactly when the pull of the name (with
    [":latest"] appended if it holds no [':']) returns no error, the list
    filtered by that name then returns one record and no error, the removal
    returns no error, and the list filtered by the name then returns no
    record and no error. *)
Theorem testPullPublicImage_passes_iff
    (St : Type) (c : ImageManagerService St) (imageName : string) (s : St) :
  outcome (testPullPublicImage c imageName s) = Passed tt
  <-> exists ref s1 images s2 s3 s4,
      PullImage c {| ImageSpec_Image := pulledName imageName |} None s = ((ref, None), s1)
      /\ ListImages c
           {| ImageFilter_Image := Some {| ImageSpec_Image := pulledName imageName |} |} s1
         = ((images, None), s2)
      /\ List.length images = 1%nat
      /\ RemoveImage c {| ImageSpec_Image := pulledName imageName |} s2 = (None, s3)
      /\ ListImages c
           {| ImageFilter_Image := Some {| ImageSpec_Image := pulledName imageName |} |} s3
         = (([], None), s4).
Proof.
  rewrite testPullPublicImage_run. cbv zeta.
  destruct (PullImage c _ None s) as [[ref [e|]] s1]; cbn [fst snd outcome].
  { split; [discriminate|]. intros (? & ? & ? & ? & ? & ? & [=] & _). }
  destruct (ListImages c _ s1) as [[images [e|]] s2] eqn:Hlist; cbn [fst snd outcome].
  { split; [discriminate|].
    intros (? & ? & ? & ? & ? & ? & [= <- <-] & Hl & _). congruence. }
  unfold GoInt.len.
  destruct (Z.eqb_spec (Z.of_nat (List.length images)) 1) as [Hone|Hne].
  - unfold after. cbn [outcome]. rewrite testRemoveImage_passes_iff. split.
    + intros (s3 & s4 & Hremove & Hempty).
      exists ref, s1, images, s2, s3, s4. repeat split; auto. lia.
    + intros (ref' & s1' & images' & s2' & s3 & s4 & [= <- <-] & Hl & _ & Hremove & Hempty).
      rewrite Hlist in Hl. injection Hl as <- <-. now exists s3, s4.
  - cbn [outcome]. split; [discriminate|].
    intros (ref' & s1' & images' & s2' & s3 & s4 & [= <- <-] & Hl & Hlen & _).
    rewrite Hlist in Hl. injection Hl as <- <-. lia.
Qed.

(** X4.  [pullImageList] pulls the images in the order of the list, each
    under its name with [":latest"] appended if it holds no [':'] and in the
    state the pull before it left, and stops at the first pull that errors.
    Its calls, its outcome and the state it leaves are those of pulling these
    names through the client up to the first error: it passes only when no
    pull errored, and otherwise fails with the message of the pull wrapper
    around the first error.  When the pull of an image errors after the pulls
    before it have passed, that pull is the last call: no image after it is
    requested.  A list that passes has had every image pulled. *)
Theorem pullImageList_stops_at_the_first_error
    (St : Type) (c : ImageManagerService St) (imageList : list string) (s : St) :
  (clientCalls (trace (pullImageList c imageList s))
   = firstn (fst (fst (pullsUpToError c (map pulledName imageList) s)))
       (map pullOf (map pulledName imageList))
   /\ outcome (pullImageList c imageList s)
      = match snd (fst (pullsUpToError c (map pulledName imageList) s)) with
        | None => Passed tt
        | Some e => Failed ("failed to pull image: " ++ e)
        end
   /\ final (pullImageList c imageList s)
      = snd (pullsUpToError c (map pulledName imageList) s))
  /\ (forall pre imageName post e,
         imageList = (pre ++ imageName :: post)%list ->
         outcome (pullImageList c pre s) = Passed tt ->
         snd (fst (PullImage c {| ImageSpec_Image := pulledName imageName |} None
                     (final (pullImageList c pre s)))) = Some e ->
         outcome (pullImageList c imageList s) = Failed ("failed to pull image: " ++ e)
         /\ clientCalls (trace (pullImageList c imageList s))
            = map pullOf (map pulledName (pre ++ [imageName]))
         /\ final (pullImageList c imageList s)
            = snd (PullImage c {| ImageSpec_Image := pulledName imageName |} None
                     (final (pullImageList c pre s))))
  /\ (outcome (pullImageList c imageList s) = Passed tt ->
      clientCalls (trace (pullImageList c imageList s))
      = map pullOf (map pulledName imageList)).
Proof.
  split; [apply pullImageList_up_to_error|]. split.
  - intros pre imageName post e -> Hpre Herr.
    now apply pullImageList_ends_at_error.
  - apply pullImageList_passed_all.
Qed.

(** X5.  [removeImageList] removes the images in the order of the list, under
    the names as they are given (no tag is appended), each in the state the
    removal before it left, and stops at the first removal that errors.  Its
    calls, its outcome and the state it leaves are those of removing the
    names through the client up to the first error: it passes only when no
    removal errored, and otherwise fails with the message of the removal
    wrapper around the first error.  When the removal of an image errors
    after the removals before it have passed, that removal is the last call:
    the images after it are not asked to be removed. *)
Theorem removeImageList_stops_at_the_first_error
    (St : Type) (c : ImageManagerService St) (imageList : list string) (s : St) :
  (clientCalls (trace (removeImageList c imageList s))
   = firstn (fst (fst (removalsUpToError c imageList s))) (map removeOf imageList)
   /\ removals (trace (removeImageList c imageList s))
      = firstn (fst (fst (removalsUpToError c imageList s))) imageList
   /\ outcome (removeImageList c imageList s)
      = match snd (fst (removalsUpToError c imageList s)) with
        | None => Passed tt
        | Some e => Failed ("failed to remove image: " ++ e)
        end
   /\ final (removeImageList c imageList s) = snd (removalsUpToError c imageList s))
  /\ (forall pre imageName post e,
         imageList = (pre ++ imageName :: post)%list ->
         outcome (removeImageList c pre s) = Passed tt ->
         fst (RemoveImage c {| ImageSpec_Image := imageName |}
                (final (removeImageList c pre s))) = Some e ->
         outcome (removeImageList c imageList s) = Failed ("failed to remove image: " ++ e)
         /\ clientCalls (trace (removeImageList c imageList s))
            = map removeOf (pre ++ [imageName])
         /\ removals (trace (removeImageList c imageList s)) = (pre ++ [imageName])%list
         /\ final (removeImageList c imageList s)
            = snd (RemoveImage c {| ImageSpec_Image := imageName |}
                     (final (removeImageList c pre s))))
  /\ (outcome (removeImageList c imageList s) = Passed tt ->
      removals (trace (removeImageList c imageList s)) = imageList).
Proof.
  destruct (removeImageList_up_to_error c imageList s) as (Hc & Ho & Hf).
  split; [|split].
  - split; [exact Hc|]. split; [|split; [exact Ho|exact Hf]].
    rewrite <- removals_clientCalls, Hc, firstn_map. apply removals_removes.
  - intros pre imageName post e -> Hpre Herr.
    destruct (removeImageList_ends_at_error c pre post imageName e s Hpre Herr)
      as (Ho' & Hc' & Hf').
    split; [exact Ho'|]. split; [exact Hc'|]. split; [|exact Hf'].
    rewrite <- removals_clientCalls, Hc'. apply removals_removes.
  - intros Hpass.
    rewrite <- removals_clientCalls, (removeImageList_passed c _ _ Hpass).
    apply removals_removes.
Qed.

(** X6.  In the scenarios that defer the removal, the removal is deferred
    only after the pulls: when the pull step does not pass, the scenario is
    over with it.  It ends as the pulls ended, in the state they left, having
    made their calls only: nothing is listed and nothing is removed, so the
    images pulled before the failing one stay in the runtime. *)
Theorem failed_pulls_end_the_deferring_scenarios
    (St : Type) (c : ImageManagerService St) (EqualFold : string -> string -> bool) (s : St) :
  (outcome (pullPublicImage c testImageRef s) <> Passed tt ->
   itImageStatus c s = pullPublicImage c testImageRef s)
  /\ (outcome (pullImageList c distinctImageList s) <> Passed tt ->
      itListDistinctImages c EqualFold s = pullImageList c distinctImageList s)
  /\ (outcome (pullImageList c sharedImageList s) <> Passed tt ->
      itListSharedImage c EqualFold s = pullImageList c sharedImageList s).
Proof.
  split; [|split].
  - apply itImageStatus_pull_failed.
  - apply itListDistinctImages_pulls_failed.
  - apply itListSharedImage_pulls_failed.
Qed.

(** X6 on a runtime whose registry lacks the second image of the
    distinct-images scenario: the first image is pulled, the second pull
    fails, nothing is removed and the first image stays in the store. *)
Lemma failed_pulls_end_the_deferring_scenarios_witness :
  itListDistinctImages (PartialRegistry.client "busybox:1-musl") asciiEqualFold []
  = pullImageList (PartialRegistry.client "busybox:1-musl") distinctImageList []
  /\ outcome (itListDistinctImages (PartialRegistry.client "busybox:1-musl") asciiEqualFold [])
     = Failed "failed to pull image: manifest unknown"
  /\ removals (trace (itListDistinctImages (PartialRegistry.client "busybox:1-musl")
                        asciiEqualFold [])) = []
  /\ map Id (final (itListDistinctImages (PartialRegistry.client "busybox:1-musl")
                      asciiEqualFold []))
     = ["sha256:busybox-1.26.2-uclibc"].
Proof.
  split; [|repeat split].
  apply (proj1 (proj2 (failed_pulls_end_the_deferring_scenarios
                         _ (PartialRegistry.client "busybox:1-musl") asciiEqualFold []))).
  vm_compute. discriminate.
Defined.

(** X7.  When the runtime answers every pull from the state at hand with an
    error, every scenario of the suite fails with the message of the pull
    wrapper around that error, after that one call: nothing is listed,
    nothing is removed. *)
Theorem every_scenario_fails_when_pulls_error
    (St : Type) (c : ImageManagerService St) (EqualFold : string -> string -> bool)
    (s : St) (e : error)
    (Hpull : forall spec, snd (fst (PullImage c spec None s)) = Some e) :
  Forall (fun scenario =>
            outcome (snd scenario s) = Failed ("failed to pull image: " ++ e)
            /\ (exists imageName, clientCalls (trace (snd scenario s)) = [pullOf imageName]))
         (suite c EqualFold).
Proof.
  assert (Htest : forall imageName,
             outcome (testPullPublicImage c imageName s) = Failed ("failed to pull image: " ++ e)
             /\ (exists n, clientCalls (trace (testPullPublicImage c imageName s)) = [pullOf n])).
  { intros imageName. rewrite testPullPublicImage_run. cbv zeta. rewrite Hpull.
    cbn [outcome trace]. split; [reflexivity|]. now eexists. }
  assert (Hone : forall imageName,
             outcome (pullPublicImage c imageName s) = Failed ("failed to pull image: " ++ e)).
  { intros imageName. rewrite pullPublicImage_run. cbv zeta. cbn [outcome].
    now rewrite Hpull. }
  assert (Hlist : forall imageName rest,
             outcome (pullImageList c (imageName :: rest) s)
             = Failed ("failed to pull image: " ++ e)
             /\ clientCalls (trace (pullImageList c (imageName :: rest) s))
                = [pullOf (pulledName imageName)]).
  { intros imageName rest. cbn [pullImageList]. rewrite bind_run, Hone.
    cbn [outcome trace]. split; [reflexivity|apply pullPublicImage_calls]. }
  assert (Hne : forall msg : string, @Failed unit msg <> Passed tt) by discriminate.
  pose proof (itImageStatus_pull_failed c s) as Hs.
  pose proof (itListDistinctImages_pulls_failed c EqualFold s) as Hd.
  pose proof (itListSharedImage_pulls_failed c EqualFold s) as Hsh.
  pose proof (Hlist "busybox:1-uclibc" ["busybox:1-musl"; "busybox:1-glibc"]) as Hdl.
  pose proof (Hlist "busybox:1.26.2-uclibc" ["busybox:1-uclibc"; "busybox:1"]) as Hsl.
  change ("busybox:1-uclibc" :: ["busybox:1-musl"; "busybox:1-glibc"])
    with distinctImageList in Hdl.
  change ("busybox:1.26.2-uclibc" :: ["busybox:1-uclibc"; "busybox:1"])
    with sharedImageList in Hsl.
  unfold suite. repeat constructor; cbn [snd].
  - apply (Htest testImageRef).
  - apply (proj2 (Htest testImageRef)).
  - apply (Htest testImageName).
  - apply (proj2 (Htest testImageName)).
  - apply (Htest busyboxDigestRef).
  - apply (proj2 (Htest busyboxDigestRef)).
  - rewrite Hs by (rewrite Hone; apply Hne). apply Hone.
  - rewrite Hs by (rewrite Hone; apply Hne). eexists. apply pullPublicImage_calls.
  - rewrite Hd by (rewrite (proj1 Hdl); apply Hne). apply Hdl.
  - rewrite Hd by (rewrite (proj1 Hdl); apply Hne). eexists. apply Hdl.
  - rewrite Hsh by (rewrite (proj1 Hsl); apply Hne). apply Hsl.
  - rewrite Hsh by (rewrite (proj1 Hsl); apply Hne). eexists. apply Hsl.
Qed.

(** X7 on the runtime out of reach. *)
Lemma every_scenario_fails_when_pulls_error_witness :
  Forall (fun scenario =>
            outcome (snd scenario tt) = Failed ("failed to pull image: " ++ "connection refused")
            /\ (exists imageName, clientCalls (trace (snd scenario tt)) = [pullOf imageName]))
         (suite FakeRuntime.unreachable asciiEqualFold).
Proof.
  exact (every_scenario_fails_when_pulls_error unit FakeRuntime.unreachable asciiEqualFold tt
           "connection refused" (fun spec => eq_refl)).
Defined.

(** X8.  The status scenario checks the repo-tags only.  It passes exactly
    when the pull returns no error, the status request returns no error and a
    record that has at least one repo-tag, and the deferred removal returns
    no error; and on no runtime does it fail on the assertions about the
    image's id or size, which hold of every record. *)
Theorem status_scenario_checks_the_repo_tags_only
    (St : Type) (c : ImageManagerService St) (s : St) :
  (outcome (itImageStatus c s) = Passed tt
   <-> exists ref s1 status s2 s3,
       PullImage c {| ImageSpec_Image := testImageRef |} None s = ((ref, None), s1)
       /\ ImageStatus c {| ImageSpec_Image := testImageRef |} s1 = ((Some status, None), s2)
       /\ RepoTags status <> []
       /\ RemoveImage c {| ImageSpec_Image := testImageRef |} s2 = (None, s3))
  /\ outcome (itImageStatus c s) <> Failed "Image Id should not be nil"
  /\ outcome (itImageStatus c s) <> Failed "Image Size should not be nil".
Proof.
  rewrite itImageStatus_run. cbv zeta.
  destruct (PullImage c _ None s) as [[ref [e|]] s1]; cbn [fst snd outcome].
  { split; [|split; discriminate]. split; [discriminate|].
    intros (? & ? & ? & ? & ? & [=] & _). }
  rewrite removeImage_run. cbv zeta. cbn [outcome].
  destruct (ImageStatus c _ s1) as [[status [e|]] s2] eqn:Hstatus; cbn [fst snd].
  { split; [|split; discriminate]. split; [discriminate|].
    intros (? & ? & ? & ? & ? & [= <- <-] & Hst & _). congruence. }
  destruct status as [status|].
  2:{ split.
      - split; [destruct (fst (RemoveImage c _ s2)); discriminate|].
        intros (? & ? & ? & ? & ? & [= <- <-] & Hst & _). congruence.
      - destruct (fst (RemoveImage c _ s2)); split; discriminate. }
  unfold GoInt.len.
  destruct (RepoTags status) as [|tag tags] eqn:Htags; cbn [List.length].
  - change (Z.of_nat 0 =? 0) with true. cbn [Ginkgo.settle].
    split; [|split; discriminate]. split; [discriminate|].
    intros (? & ? & status' & ? & ? & [= <- <-] & Hst & Hne & _).
    rewrite Hstatus in Hst. injection Hst as <- <-. congruence.
  - replace (Z.of_nat (S (List.length tags)) =? 0) with false
      by (symmetry; apply Z.eqb_neq; lia).
    destruct (RemoveImage c _ s2) as [[e|] s3] eqn:Hremove; cbn [fst Ginkgo.settle].
    + split; [|split; discriminate]. split; [discriminate|].
      intros (? & ? & status' & ? & ? & [= <- <-] & Hst & _ & Hrm).
      rewrite Hstatus in Hst. injection Hst as <- <-. congruence.
    + split; [|split; discriminate]. split; [|reflexivity]. intros _.
      exists ref, s1, status, s2, s3. repeat split; auto. rewrite Htags. discriminate.
Qed.

(** ** The counts of the two list scenarios *)

Lemma totalTags_app (a b : list Image) : totalTags (a ++ b) = totalTags a + totalTags b.
Proof.
  induction a as [|r a IH]; cbn [app totalTags fold_right]; [reflexivity|].
  fold (totalTags (a ++ b)). fold (totalTags a). rewrite IH. lia.
Qed.

Section Counts.
Variable EqualFold : string -> string -> bool.

Lemma countSharedImage_below_three (pre rest : list Image) :
  3 * totalTags pre < 2 ^ 63 ->
  Forall (fun r => recordMatches EqualFold r < 3) pre ->
  countSharedImage EqualFold (map Some (pre ++ rest)) 0
  = countSharedImage EqualFold (map Some rest) 0.
Proof.
  induction pre as [|r pre IH]; intros Hmax Hpre; [reflexivity|].
  cbn [app map countSharedImage totalTags fold_right] in *. fold (totalTags pre) in Hmax.
  pose proof (totalTags_nonneg pre) as Htot.
  assert (Hlen : 0 <= GoInt.len (RepoTags r)) by (unfold GoInt.len; lia).
  inversion Hpre as [|? ? Hr Hrest]; subst.
  rewrite fold_countSharedTag_in_range by lia.
  fold (recordMatches EqualFold r). rewrite Z.add_0_l.
  replace (recordMatches EqualFold r <? 3) with true by (symmetry; apply Z.ltb_lt; exact Hr).
  apply IH; [lia|exact Hrest].
Qed.

Lemma distinctTagMatches_range (imagesTag : string) :
  0 <= distinctTagMatches EqualFold imagesTag <= 3.
Proof.
  unfold distinctTagMatches.
  destruct (EqualFold imagesTag "busybox:1-uclibc"), (EqualFold imagesTag "busybox:1-musl"),
    (EqualFold imagesTag "busybox:1-glibc"); cbn [Z.b2z]; lia.
Qed.

Lemma countDistinctTag_in_range (count : Z) (imagesTag : string) :
  0 <= count -> count + 3 < 2 ^ 63 ->
  countDistinctTag EqualFold count imagesTag = count + distinctTagMatches EqualFold imagesTag.
Proof.
  intros H0 Hmax. unfold countDistinctTag, distinctTagMatches.
  destruct (EqualFold imagesTag "busybox:1-uclibc"), (EqualFold imagesTag "busybox:1-musl"),
    (EqualFold imagesTag "busybox:1-glibc");
    cbn [Z.b2z]; rewrite ?add_in_range; rewrite ?add_in_range; rewrite ?add_in_range; lia.
Qed.

Lemma distinctRecordMatches_range (img : Image) :
  0 <= distinctRecordMatches EqualFold img <= 3 * GoInt.len (RepoTags img).
Proof.
  unfold distinctRecordMatches, GoInt.len.
  induction (RepoTags img) as [|tag tags IH]; cbn [fold_right List.length]; [lia|].
  pose proof (distinctTagMatches_range tag). lia.
Qed.

Lemma fold_countDistinctTag_in_range (tags : list string) (count : Z) :
  0 <= count -> count + 3 * GoInt.len tags < 2 ^ 63 ->
  fold_left (countDistinctTag EqualFold) tags count
  = count + fold_right (fun imagesTag n => distinctTagMatches EqualFold imagesTag + n) 0 tags.
Proof.
  unfold GoInt.len. revert count.
  induction tags as [|tag tags IH]; intros count H0 Hmax;
    cbn [fold_left fold_right List.length] in *.
  - lia.
  - pose proof (distinctTagMatches_range tag) as Htag.
    rewrite countDistinctTag_in_range by lia.
    rewrite IH by lia. lia.
Qed.

Lemma countDistinctImages_in_range (recs : list Image) (count : Z) :
  0 <= count -> count + 3 * totalTags recs < 2 ^ 63 ->
  countDistinctImages EqualFold (map Some recs) count
  = Some (count + distinctListMatches EqualFold recs).
Proof.
  revert count.
  induction recs as [|r recs IH]; intros count H0 Hmax;
    cbn [map countDistinctImages distinctListMatches totalTags fold_right] in *.
  - f_equal. lia.
  - fold (totalTags recs) in Hmax. fold (distinctListMatches EqualFold recs).
    pose proof (totalTags_nonneg recs) as Htot.
    pose proof (distinctRecordMatches_range r) as Hr.
    assert (Hlen : 0 <= GoInt.len (RepoTags r)) by (unfold GoInt.len; lia).
    rewrite fold_countDistinctTag_in_range by lia.
    fold (distinctRecordMatches EqualFold r).
    rewrite IH by lia. f_equal. lia.
Qed.

Lemma totalTags_Permutation (recs recs' : list Image) :
  Permutation recs recs' -> totalTags recs = totalTags recs'.
Proof.
  induction 1 as [|r a b _ IH|r r' a|a b d _ IH1 _ IH2]; cbn [totalTags fold_right].
  - reflexivity.
  - fold (totalTags a). fold (totalTags b). now rewrite IH.
  - lia.
  - congruence.
Qed.

Lemma distinctListMatches_Permutation (recs recs' : list Image) :
  Permutation recs recs' ->
  distinctListMatches EqualFold recs = distinctListMatches EqualFold recs'.
Proof.
  induction 1 as [|r a b _ IH|r r' a|a b d _ IH1 _ IH2];
    cbn [distinctListMatches fold_right].
  - reflexivity.
  - fold (distinctListMatches EqualFold a). fold (distinctListMatches EqualFold b).
    now rewrite IH.
  - lia.
  - congruence.
Qed.

Lemma countDistinctImages_nil_record (images : list (option Image)) (count : Z) :
  countDistinctImages EqualFold images count = None <-> In None images.
Proof.
  revert count. induction images as [|[img|] images IH]; intros count;
    cbn [countDistinctImages In].
  - split; [discriminate|contradiction].
  - rewrite IH. split; [now right|]. intros [H|H]; [discriminate|exact H].
  - split; [now left|reflexivity].
Qed.

Lemma countSharedImage_nil_record (images : list (option Image)) (count : Z) :
  countSharedImage EqualFold images count = None <-> In None images.
Proof.
  revert count. induction images as [|[img|] images IH]; intros count;
    cbn [countSharedImage In].
  - split; [discriminate|contradiction].
  - rewrite IH. split; [now right|]. intros [H|H]; [discriminate|exact H].
  - split; [now left|reflexivity].
Qed.

End Counts.

(** X9.  The count of the shared-image scenario starts at the first record
    that has at least three matches.  The matches of the records before it,
    each below three, are dropped however many they are together; from that
    record on every match is added and the count is never set back.  When no
    record has three matches the count ends at 0.  (The repo-tag entries of
    the list are taken to stay within the range of [int].) *)
Theorem shared_count_starts_at_the_first_record_with_three
    (EqualFold : string -> string -> bool) (recs : list Image)
    (Hrange : 3 * totalTags recs < 2 ^ 63) :
  (Forall (fun r => recordMatches EqualFold r < 3) recs ->
   countSharedImage EqualFold (map Some recs) 0 = Some 0)
  /\ (forall pre r post,
         recs = (pre ++ r :: post)%list ->
         Forall (fun p => recordMatches EqualFold p < 3) pre ->
         3 <= recordMatches EqualFold r ->
         countSharedImage EqualFold (map Some recs) 0
         = Some (recordMatches EqualFold r + listMatches EqualFold post)).
Proof.
  split.
  - intros Hall.
    rewrite <- (app_nil_r recs).
    rewrite (countSharedImage_below_three EqualFold recs [] Hrange Hall). reflexivity.
  - intros pre r post -> Hpre Hr.
    rewrite totalTags_app in Hrange.
    pose proof (totalTags_nonneg pre) as Hp.
    pose proof (totalTags_nonneg (r :: post)) as Hq.
    rewrite countSharedImage_below_three by (lia || exact Hpre).
    cbn [map countSharedImage totalTags fold_right] in *. fold (totalTags post) in *.
    pose proof (totalTags_nonneg post) as Htot.
    assert (Hlen : 0 <= GoInt.len (RepoTags r)) by (unfold GoInt.len; lia).
    pose proof (recordMatches_range EqualFold r) as Hrr.
    rewrite fold_countSharedTag_in_range by lia.
    fold (recordMatches EqualFold r). rewrite Z.add_0_l.
    replace (recordMatches EqualFold r <? 3) with false by (symmetry; apply Z.ltb_ge; lia).
    apply countSharedImage_from_three; lia.
Qed.

(** X9 on a list of four records: two of the three tags, nothing, the three
    tags, and three case variants of one tag.  The two matches of the first
    record are dropped; the count is the six matches of the last two. *)
Lemma shared_count_starts_at_the_first_record_with_three_witness :
  countSharedImage asciiEqualFold
    (map Some [twoOfThree; untaggedRecord; sharedRecord; caseVariants]) 0
  = Some (recordMatches asciiEqualFold sharedRecord + listMatches asciiEqualFold [caseVariants])
  /\ recordMatches asciiEqualFold sharedRecord + listMatches asciiEqualFold [caseVariants] = 6.
Proof.
  split; [|reflexivity].
  apply (proj2 (shared_count_starts_at_the_first_record_with_three asciiEqualFold
                  [twoOfThree; untaggedRecord; sharedRecord; caseVariants] eq_refl)
               [twoOfThree; untaggedRecord] sharedRecord [caseVariants] eq_refl).
  - repeat constructor.
  - vm_compute. discriminate.
Defined.

(** X10.  The count of the distinct-images scenario is the number of matches
    of all repo-tag entries of all listed records, added up with nothing set
    back: it does not tell how the matches are spread over the records, and
    it is the same for every order of the records.  (The repo-tag entries of
    the list are taken to stay within the range of [int].) *)
Theorem distinct_count_adds_up_all_matches
    (EqualFold : string -> string -> bool) (recs : list Image)
    (Hrange : 3 * totalTags recs < 2 ^ 63) :
  countDistinctImages EqualFold (map Some recs) 0
  = Some (distinctListMatches EqualFold recs)
  /\ (forall recs', Permutation recs recs' ->
        countDistinctImages EqualFold (map Some recs') 0
        = countDistinctImages EqualFold (map Some recs) 0).
Proof.
  split.
  - rewrite countDistinctImages_in_range by lia. reflexivity.
  - intros recs' Hperm.
    rewrite !countDistinctImages_in_range
      by (rewrite <- ?(totalTags_Permutation _ _ Hperm); lia).
    now rewrite (distinctListMatches_Permutation EqualFold _ _ Hperm).
Qed.

(** X10 on two records, listed in the one order and in the other. *)
Lemma distinct_count_adds_up_all_matches_witness :
  countDistinctImages asciiEqualFold (map Some [sharedRecord; twoOfThree]) 0
  = countDistinctImages asciiEqualFold (map Some [twoOfThree; sharedRecord]) 0
  /\ countDistinctImages asciiEqualFold (map Some [twoOfThree; sharedRecord]) 0 = Some 2.
Proof.
  split; [|reflexivity].
  apply (proj2 (distinct_count_adds_up_all_matches asciiEqualFold
                  [twoOfThree; sharedRecord] eq_refl)).
  apply perm_swap.
Defined.

(** X11.  A nil record in the answer to the list request panics the two list
    scenarios: once the pulls have passed and the list request has returned
    without error, and with removals that do not error, the scenario ends in
    the nil-dereference panic exactly when one of the listed record pointers
    is nil, whatever the other records are. *)
Theorem nil_record_panics_the_list_scenarios
    (St : Type) (c : ImageManagerService St) (EqualFold : string -> string -> bool)
    (Hremove : forall spec st, fst (RemoveImage c spec st) = None) :
  (forall s s2 images,
      outcome (pullImageList c distinctImageList s) = Passed tt ->
      ListImages c {| ImageFilter_Image := None |} (final (pullImageList c distinctImageList s))
      = ((images, None), s2) ->
      outcome (itListDistinctImages c EqualFold s)
      = Panicked "invalid memory address or nil pointer dereference"
      <-> In None images)
  /\ (forall s s2 images,
         outcome (pullImageList c sharedImageList s) = Passed tt ->
         ListImages c {| ImageFilter_Image := None |} (final (pullImageList c sharedImageList s))
         = ((images, None), s2) ->
         outcome (itListSharedImage c EqualFold s)
         = Panicked "invalid memory address or nil pointer dereference"
         <-> In None images).
Proof.
  split; intros s s2 images Hpulls Hlist.
  - rewrite itListDistinctImages_run. cbv zeta. rewrite Hpulls, Hlist. cbn [fst snd outcome].
    rewrite (proj1 (removeImageList_all c distinctImageList s2 Hremove)).
    rewrite <- (countDistinctImages_nil_record EqualFold images 0).
    destruct (countDistinctImages EqualFold images 0) as [n|]; [|split; reflexivity].
    destruct (n =? 3); cbn [Ginkgo.settle]; split; discriminate.
  - rewrite itListSharedImage_run. cbv zeta. rewrite Hpulls, Hlist. cbn [fst snd outcome].
    rewrite (proj1 (removeImageList_all c sharedImageList s2 Hremove)).
    rewrite <- (countSharedImage_nil_record EqualFold images 0).
    destruct (countSharedImage EqualFold images 0) as [n|]; [|split; reflexivity].
    destruct (n =? 3); cbn [Ginkgo.settle]; split; discriminate.
Qed.

(** X11 on the stub that lists the record with the three tags and a nil
    pointer after it. *)
Lemma nil_record_panics_the_list_scenarios_witness :
  outcome (itListSharedImage (FakeRuntime.canned [Some sharedRecord; None] None)
             asciiEqualFold tt)
  = Panicked "invalid memory address or nil pointer dereference".
Proof.
  apply (proj2 (nil_record_panics_the_list_scenarios unit
                  (FakeRuntime.canned [Some sharedRecord; None] None) asciiEqualFold
                  (fun spec st => eq_refl))
               tt tt [Some sharedRecord; None] eq_refl eq_refl).
  right. left. reflexivity.
Defined.

(** X12.  The distinct-images scenario asserts a total, not three images:
    once its pulls have passed and the list request is answered without error
    with the records [recs] (their repo-tag entries within the range of
    [int]), it fails its assertion on the count exactly when the matches of
    all listed repo-tag entries do not add up to 3, however they are spread
    over the records. *)
Theorem distinct_scenario_asserts_the_total_of_matches
    (St : Type) (c : ImageManagerService St) (EqualFold : string -> string -> bool)
    (s s2 : St) (recs : list Image)
    (Hrange : 3 * totalTags recs < 2 ^ 63)
    (Hpulls : outcome (pullImageList c distinctImageList s) = Passed tt)
    (Hlist : ListImages c {| ImageFilter_Image := None |}
               (final (pullImageList c distinctImageList s))
             = ((map Some recs, None), s2)) :
  outcome (itListDistinctImages c EqualFold s)
  = Failed "Should have the specified three images in list"
  <-> distinctListMatches EqualFold recs <> 3.
Proof.
  rewrite itListDistinctImages_run. cbv zeta. rewrite Hpulls, Hlist.
  cbn [fst snd outcome].
  rewrite countDistinctImages_in_range by lia. rewrite Z.add_0_l.
  destruct (Z.eqb_spec (distinctListMatches EqualFold recs) 3) as [Heq|Hne].
  - split; [|intros H; now contradiction H].
    intros Hfail. exfalso. revert Hfail.
    destruct (removeImageList_outcome c distinctImageList s2) as [Hd|[e Hd]]; rewrite Hd;
      discriminate.
  - split; [intros _; exact Hne|reflexivity].
Qed.

(** X12 on the stub that lists one record with the three tags of the
    scenario: one image, and the scenario passes. *)
Lemma distinct_scenario_asserts_the_total_of_matches_witness :
  outcome (itListDistinctImages
             (FakeRuntime.canned
                [Some {| Id := "sha256:busybox"; RepoDigests := []; Size_ := 1;
                         RepoTags := ["busybox:1-uclibc"; "busybox:1-musl"; "busybox:1-glibc"] |}]
                None)
             asciiEqualFold tt)
  = Passed tt
  /\ (outcome (itListDistinctImages
                 (FakeRuntime.canned
                    [Some {| Id := "sha256:busybox"; RepoDigests := []; Size_ := 1;
                             RepoTags := ["busybox:1-uclibc"; "busybox:1-musl";
                                          "busybox:1-glibc"] |}]
                    None)
                 asciiEqualFold tt)
       = Failed "Should have the specified three images in list"
       <-> distinctListMatches asciiEqualFold
             [{| Id := "sha256:busybox"; RepoDigests := []; Size_ := 1;
                 RepoTags := ["busybox:1-uclibc"; "busybox:1-musl"; "busybox:1-glibc"] |}]
           <> 3).
Proof.
  split; [reflexivity|].
  exact (distinct_scenario_asserts_the_total_of_matches unit
           (FakeRuntime.canned
              [Some {| Id := "sha256:busybox"; RepoDigests := []; Size_ := 1;
                       RepoTags := ["busybox:1-uclibc"; "busybox:1-musl"; "busybox:1-glibc"] |}]
              None)
           asciiEqualFold tt tt
           [{| Id := "sha256:busybox"; RepoDigests := []; Size_ := 1;
               RepoTags := ["busybox:1-uclibc"; "busybox:1-musl"; "busybox:1-glibc"] |}]
           eq_refl eq_refl eq_refl).
Defined.
